(** * Image simulation of lensed systems: [sim_pipeline/image_simulation.py]

    A shallow embedding of the six functions of the module
    ([simulate_image], [sharp_image], [sharp_rgb_image],
    [rgb_image_from_image_list], [point_source_image_properties],
    [point_source_image]) and the properties of its specification.

    Conventions of the embedding.
    - Python floats are real numbers ([R]): arithmetic is exact, rounding,
      overflow and underflow are outside the model. The theorems say
      which formula is applied to which inputs; they say nothing on the
      sign or the order of the float results, nor on identities that hold
      only in exact arithmetic.
    - Python [dict]s with string keys are [gmap string _]; [d.get(k, None)]
      is the lookup [d !! k].
    - A raised exception is the left injection of [result]; statements are
      sequenced with [let! x := e in k].
    - The collaborators of the module are interfaces: the lens descriptor
      is the record [LensClass], and lenstronomy, the band table of
      [image_quality_lenstronomy], [make_lupton_rgb] and the [Variability]
      class are the classes [Lenstronomy], [Observations], [Visualization]
      and [VariabilityModels]. The module only passes values to them and
      back; their calls are taken to return. The class [Constructors]
      names the calls on which the PSF and [Variability] constructors
      return, for the statement that depends on it.
    - astropy's [Table] and units and numpy's [reshape] and transpose are
      modelled as far as the module uses them, with the exceptions they
      raise on columns of different lengths, on units that are not times
      and on ragged rows. *)

From Stdlib Require Import Reals Lra.
From stdpp Require Import gmap strings list.

(** ** Exceptions and sequencing *)

Inductive exn : Type :=
| IndexError                  (* a sequence indexed out of range *)
| InconsistentColumnLengths   (* ValueError of astropy's Table *)
| InhomogeneousShape          (* ValueError of np.array on ragged rows *)
| UnitConversionError         (* astropy: the unit is not a time *)
| UnsupportedModel.           (* ValueError raised by point_source_image *)

Definition result (A : Type) : Type := (exn + A)%type.

Definition ret {A : Type} (a : A) : result A := inr a.
Definition raise {A : Type} (e : exn) : result A := inl e.

Definition bind {A B : Type} (m : result A) (k : A -> result B) : result B :=
  match m with
  | inl e => inl e
  | inr a => k a
  end.

Notation "'let!' x ':=' m 'in' k" := (bind m (fun x => k))
  (at level 10, x name, m at level 100, k at level 200).

(** [l[i]] on a Python sequence, for a non-negative index. *)
Definition index {A : Type} (l : list A) (i : nat) : result A :=
  match l !! i with
  | Some a => ret a
  | None => raise IndexError
  end.

(** [for x in xs: out.append(body(x))], stopping at the first exception. *)
Fixpoint for_in {A B : Type} (xs : list A) (body : A -> result B)
  : result (list B) :=
  match xs with
  | [] => ret []
  | x :: xs' =>
      let! b := body x in
      let! bs := for_in xs' body in
      ret (b :: bs)
  end.

(** [range(n)] *)
Definition range (n : nat) : list nat := seq 0 n.

(** ** Magnitude to amplitude *)

(** The two statements
    [delta_m = mag - mag_zero_point; counts = 10 ** (-delta_m / 2.5)]
    of [point_source_image_properties] (lines 200-201) and of
    [point_source_image] (lines 301-302). *)
Definition counts (mag mag_zero_point : R) : R :=
  let delta_m := (mag - mag_zero_point)%R in
  Rpower 10 (- delta_m / 2.5).

(** ** Values shared with the collaborators *)

(** The values this module stores in a band configuration: floats, ints
    and strings. *)
Inductive pyval : Type :=
| PyFloat (x : R)
| PyInt (z : Z)
| PyStr (s : string).

(** A 2-d numpy array of floats (a rendered image, a PSF kernel). *)
Definition image : Type := list (list R).

(** [a += b] on arrays of one shape. *)
Definition np_add (a b : image) : image := zip_with (zip_with Rplus) a b.

(** A lenstronomy keyword list: one parameter dictionary per profile. *)
Definition kwargs_list : Type := list (gmap string R).

(** lenstronomy's [kwargs_model]: the model names of each component. *)
Definition kwargs_model_t : Type := gmap string (list string).

(** The lens descriptor (for instance [GalaxyGalaxyLens]), through the
    methods and attributes this module reads. *)
Record LensClass : Type := {
  lenstronomy_kwargs : string -> kwargs_model_t * gmap string kwargs_list;
  lens_position : R * R;
  image_positions : list R * list R;
  point_source_magnitude : string -> bool -> list R;
  image_observer_times : R -> list R
}.

(** [SimAPI(numpix=..., kwargs_single_band=..., kwargs_model=...)] *)
Record SimAPI : Type := {
  numpix : nat;
  kwargs_single_band : gmap string pyval;
  kwargs_model : kwargs_model_t
}.

(** [sim_api.image_model_class(kwargs_numerics)] *)
Record ImageModel : Type := {
  image_model_api : SimAPI;
  kwargs_numerics : gmap string Z
}.

(** The arguments of [ImageModel.image]. *)
Record image_call : Type := {
  kwargs_lens : option kwargs_list;
  kwargs_source : option kwargs_list;
  kwargs_lens_light : option kwargs_list;
  kwargs_ps : option kwargs_list;
  unconvolved : bool;
  source_add : bool;
  lens_light_add : bool;
  point_source_add : bool
}.

(** [PSF(psf_type=..., kernel_point_source=...)] *)
Record PSF : Type := {
  psf_type : string;
  kernel_point_source : image
}.

(** [PixelGrid(nx, ny, transform_pix2angle, ra_at_xy_0, dec_at_xy_0)] *)
Record PixelGrid : Type := {
  nx : nat;
  ny : nat;
  transform_pix2angle : list (list R);
  ra_at_xy_0 : R;
  dec_at_xy_0 : R
}.

(** [PointSourceRendering(pixel_grid, supersampling_factor, psf)] *)
Record PointSourceRendering : Type := {
  pixel_grid : PixelGrid;
  supersampling_factor : Z;
  psf : PSF
}.

(** The state of numpy's random generator when a noise map is drawn. *)
Definition rng_state : Type := nat.

(** lenstronomy, as this module calls it. Keyword arguments the module
    leaves out take lenstronomy's defaults, written out where the call is
    built. *)
Class Lenstronomy : Type := {
  magnitude2amplitude :
    SimAPI -> option kwargs_list -> option kwargs_list -> option kwargs_list ->
    option kwargs_list * option kwargs_list * option kwargs_list;
  image_model_image : ImageModel -> image_call -> image;
  noise_for_model : SimAPI -> rng_state -> image -> image;
  map_coord2pix : SimAPI -> R -> R -> R * R;
  map_pix2coord : SimAPI -> R -> R -> R * R;
  point_source_rendering :
    PointSourceRendering -> list R -> list R -> list R -> image
}.

(** [sim_pipeline.Observations.image_quality_lenstronomy.kwargs_single_band],
    called with the observatory, the band and the keyword overrides. *)
Class Observations : Type := {
  image_quality_kwargs_single_band :
    string -> string -> gmap string pyval -> gmap string pyval
}.

(** An RGB composite: three 8-bit channels per pixel. *)
Definition rgb_image : Type := list (list (Z * Z * Z)).

(** [astropy.visualization.make_lupton_rgb(r, g, b, stretch=...)] *)
Class Visualization : Type := {
  make_lupton_rgb : image -> image -> image -> R -> rgb_image
}.

(** The bound method [sinusoidal_variability] of a [Variability] object
    built from the keyword dictionary. *)
Class VariabilityModels : Type := {
  sinusoidal_variability : gmap string R -> R -> R
}.

(** Whether the two constructors that [point_source_image] calls before
    it tests the model name return: [PSF(psf_type="PIXEL",
    kernel_point_source=kernel)] of line 262, which lenstronomy refuses
    with a [ValueError] for a kernel with an even number of rows, and
    [Variability] applied to the keyword dictionary at line 282. The
    embedding of [point_source_image] describes the calls on which both
    return. *)
Class Constructors : Type := {
  PSF_accepts : image -> bool;
  Variability_accepts : gmap string R -> bool
}.

(** ** astropy units and quantities *)

Inductive Unit : Type := u_day | u_hour | u_minute | u_second | u_meter.

Definition Unit_eqb (a b : Unit) : bool :=
  match a, b with
  | u_day, u_day | u_hour, u_hour | u_minute, u_minute
  | u_second, u_second | u_meter, u_meter => true
  | _, _ => false
  end.

(** The length of one unit in days; a unit that is not a time has none. *)
Definition in_days (u : Unit) : option R :=
  match u with
  | u_day => Some 1%R
  | u_hour => Some (1 / 24)%R
  | u_minute => Some (1 / 1440)%R
  | u_second => Some (1 / 86400)%R
  | u_meter => None
  end.

(** An array quantity: [value] in the unit [unit_of]. *)
Record Quantity : Type := {
  value : list R;
  unit_of : Unit
}.

(** [q.to(u.day)] *)
Definition to_day (q : Quantity) : result Quantity :=
  match in_days (unit_of q) with
  | Some d => ret {| value := map (fun v => (v * d)%R) (value q);
                     unit_of := u_day |}
  | None => raise UnitConversionError
  end.

(** The [variability] argument of [point_source_image] when it is not
    [None]: a dictionary with the keys the function reads. *)
Record VariabilitySpec : Type := {
  time : Quantity;
  variability_model : string;
  kwargs_variability : gmap string R
}.

(** ** astropy tables *)

(** The columns [point_source_image_properties] passes to [Table], under
    the names it gives them. A coordinate pair passed as a column is a
    column of its two numbers; a list of pairs is a column of pairs. *)
Record Table : Type := {
  deflector_pix : list R;
  image_pix : list (R * R);
  ra_image : list R;
  dec_image : list R;
  image_amplitude : list R;
  image_magnitude : list R;
  radec_at_xy_0 : list R
}.

Definition column_lengths (t : Table) : list nat :=
  [ length (deflector_pix t); length (image_pix t); length (ra_image t);
    length (dec_image t); length (image_amplitude t);
    length (image_magnitude t); length (radec_at_xy_0 t) ].

(** [Table(columns, names=...)]: astropy collects the set of the column
    lengths and raises [ValueError("Inconsistent data column lengths")]
    when it has more than one element. *)
Definition Table_init (cols : Table) : result Table :=
  let lengths : gset nat := list_to_set (column_lengths cols) in
  if decide (1 < size lengths) then raise InconsistentColumnLengths
  else ret cols.

(** [len(table)]: the number of rows, the length of its columns. *)
Definition nrows (t : Table) : nat := length (deflector_pix t).

(** ** numpy reshaping *)

(** [np.array(rows).T.tolist()] for a list of 1-d arrays. *)
Definition np_transpose (rows : list (list R)) : result (list (list R)) :=
  match rows with
  | [] => ret []
  | r0 :: _ =>
      if forallb (fun r => Nat.eqb (length r) (length r0)) rows
      then ret (map (fun i => map (fun r => nth i r 0%R) rows)
                    (range (length r0)))
      else raise InhomogeneousShape
  end.

(** [np.array(flat).reshape(n, k)] for a flat list of [n * k] numbers. *)
Fixpoint reshape (n k : nat) (flat : list R) : list (list R) :=
  match n with
  | O => []
  | S n' => take k flat :: reshape n' k (drop k flat)
  end.

(** ** The functions of [image_simulation.py] *)

Section ImageSimulation.

Context {lenstronomy : Lenstronomy} {observations : Observations}
        {visualization : Visualization} {variability_models : VariabilityModels}.

(** The model [simulate_image] builds (lines 28-47): the band
    configuration of the observatory and the numerics of line 43. *)
Definition simulate_image_model (lens_class : LensClass) (band : string)
    (num_pix : nat) (observatory : string) (kwargs : gmap string pyval)
  : ImageModel :=
  let '(kwargs_model, kwargs_params) := lenstronomy_kwargs lens_class band in
  let kwargs_single_band :=
    image_quality_kwargs_single_band observatory band kwargs in
  let sim_api := {| numpix := num_pix;
                    kwargs_single_band := kwargs_single_band;
                    kwargs_model := kwargs_model |} in
  let kwargs_numerics : gmap string Z :=
    <["point_source_supersampling_factor" := 1%Z]>
      (<["supersampling_factor" := 3%Z]> ∅) in
  {| image_model_api := sim_api; kwargs_numerics := kwargs_numerics |}.

(** The call [image_model.image(...)] of lines 49-54; the four flags are
    not passed and keep lenstronomy's defaults. *)
Definition simulate_image_call (lens_class : LensClass) (band : string)
    (num_pix : nat) (observatory : string) (kwargs : gmap string pyval)
  : image_call :=
  let '(kwargs_model, kwargs_params) := lenstronomy_kwargs lens_class band in
  let sim_api := image_model_api
    (simulate_image_model lens_class band num_pix observatory kwargs) in
  let '(kwargs_lens_light, kwargs_source, kwargs_ps) :=
    magnitude2amplitude sim_api
      (kwargs_params !! "kwargs_lens_light")
      (kwargs_params !! "kwargs_source")
      (kwargs_params !! "kwargs_ps") in
  let kwargs_lens := kwargs_params !! "kwargs_lens" in
  {| kwargs_lens := kwargs_lens;
     kwargs_source := kwargs_source;
     kwargs_lens_light := kwargs_lens_light;
     kwargs_ps := kwargs_ps;
     unconvolved := false;
     source_add := true;
     lens_light_add := true;
     point_source_add := true |}.

(** [simulate_image] (lines 11-57). [rng] is the state of the random
    generator from which [noise_for_model] draws. *)
Definition simulate_image (rng : rng_state) (lens_class : LensClass)
    (band : string) (num_pix : nat) (add_noise : bool) (observatory : string)
    (kwargs : gmap string pyval) : image :=
  let image_model :=
    simulate_image_model lens_class band num_pix observatory kwargs in
  let sim_api := image_model_api image_model in
  let image :=
    image_model_image image_model
      (simulate_image_call lens_class band num_pix observatory kwargs) in
  if add_noise then np_add image (noise_for_model sim_api rng image)
  else image.

(** The dictionary literal [kwargs_band] of [sharp_image] (lines 74-82)
    and of [point_source_image_properties] (lines 168-176). *)
Definition kwargs_band (delta_pix mag_zero_point : R) : gmap string pyval :=
  <["pixel_scale" := PyFloat delta_pix]>
    (<["magnitude_zero_point" := PyFloat mag_zero_point]>
      (<["background_noise" := PyInt 0]>
        (<["psf_type" := PyStr "NONE"]>
          (<["exposure_time" := PyInt 1]> ∅)))).

(** [SimAPI(numpix=num_pix, kwargs_single_band=kwargs_band,
    kwargs_model=kwargs_model)], as [sharp_image] (lines 73-86) and
    [point_source_image_properties] (lines 167-180) build it. *)
Definition band_sim_api (lens_class : LensClass) (band : string)
    (mag_zero_point delta_pix : R) (num_pix : nat) : SimAPI :=
  let '(kwargs_model, kwargs_params) := lenstronomy_kwargs lens_class band in
  {| numpix := num_pix;
     kwargs_single_band := kwargs_band delta_pix mag_zero_point;
     kwargs_model := kwargs_model |}.

(** The model and the call that [sharp_image] hands to lenstronomy
    (lines 92-104). *)
Definition sharp_image_model (lens_class : LensClass) (band : string)
    (mag_zero_point delta_pix : R) (num_pix : nat) : ImageModel :=
  let sim_api :=
    band_sim_api lens_class band mag_zero_point delta_pix num_pix in
  let kwargs_numerics : gmap string Z := <["supersampling_factor" := 1%Z]> ∅ in
  {| image_model_api := sim_api; kwargs_numerics := kwargs_numerics |}.

Definition sharp_image_call (lens_class : LensClass) (band : string)
    (mag_zero_point delta_pix : R) (num_pix : nat) (with_deflector : bool)
  : image_call :=
  let '(kwargs_model, kwargs_params) := lenstronomy_kwargs lens_class band in
  let sim_api := image_model_api
    (sharp_image_model lens_class band mag_zero_point delta_pix num_pix) in
  let '(kwargs_lens_light, kwargs_source, kwargs_ps) :=
    magnitude2amplitude sim_api
      (kwargs_params !! "kwargs_lens_light")
      (kwargs_params !! "kwargs_source")
      (kwargs_params !! "kwargs_ps") in
  let kwargs_lens := kwargs_params !! "kwargs_lens" in
  {| kwargs_lens := kwargs_lens;
     kwargs_source := kwargs_source;
     kwargs_lens_light := kwargs_lens_light;
     kwargs_ps := kwargs_ps;
     unconvolved := true;
     source_add := true;
     lens_light_add := with_deflector;
     point_source_add := false |}.

(** [sharp_image] (lines 60-105). *)
Definition sharp_image (lens_class : LensClass) (band : string)
    (mag_zero_point delta_pix : R) (num_pix : nat) (with_deflector : bool)
  : image :=
  image_model_image
    (sharp_image_model lens_class band mag_zero_point delta_pix num_pix)
    (sharp_image_call lens_class band mag_zero_point delta_pix num_pix
       with_deflector).

(** [sharp_rgb_image] (lines 108-140); [with_deflector] keeps its default
    [True] in the three calls. *)
Definition sharp_rgb_image (lens_class : LensClass)
    (rgb_band_list : list string) (mag_zero_point delta_pix : R)
    (num_pix : nat) : result rgb_image :=
  let! band_r := index rgb_band_list 0 in
  let image_r :=
    sharp_image lens_class band_r mag_zero_point delta_pix num_pix true in
  let! band_g := index rgb_band_list 1 in
  let image_g :=
    sharp_image lens_class band_g mag_zero_point delta_pix num_pix true in
  let! band_b := index rgb_band_list 2 in
  let image_b :=
    sharp_image lens_class band_b mag_zero_point delta_pix num_pix true in
  let image_rgb := make_lupton_rgb image_r image_g image_b 0.5%R in
  ret image_rgb.

(** [rgb_image_from_image_list] (lines 143-152). *)
Definition rgb_image_from_image_list (image_list : list image) (stretch : R)
  : result rgb_image :=
  let! image_0 := index image_list 0 in
  let! image_1 := index image_list 1 in
  let! image_2 := index image_list 2 in
  let image_rgb := make_lupton_rgb image_0 image_1 image_2 stretch in
  ret image_rgb.

(** The seven columns [point_source_image_properties] computes (lines
    167-202), before they are handed to [Table]. *)
Definition point_source_columns (lens_class : LensClass) (band : string)
    (mag_zero_point delta_pix : R) (num_pix : nat) : result Table :=
  let sim_api :=
    band_sim_api lens_class band mag_zero_point delta_pix num_pix in
  let image_data := sim_api in
  let lens_center := lens_position lens_class in
  let ra_lens_value := fst lens_center in
  let dec_lens_value := snd lens_center in
  let lens_pix_coordinate :=
    map_coord2pix image_data ra_lens_value dec_lens_value in
  let ps_coordinate := image_positions lens_class in
  let ra_image_values := fst ps_coordinate in
  let dec_image_values := snd ps_coordinate in
  let image_magnitude := point_source_magnitude lens_class band true in
  let image_pix_coordinate :=
    map (fun '(image_ra, image_dec) =>
           map_coord2pix image_data image_ra image_dec)
        (zip ra_image_values dec_image_values) in
  let '(ra_at_xy_0, dec_at_xy_0) := map_pix2coord image_data 0 0 in
  let! image_amplitude :=
    for_in (range (length image_magnitude)) (fun i =>
      let! mag_i := index image_magnitude i in
      ret (counts mag_i mag_zero_point)) in
  ret {| deflector_pix := [fst lens_pix_coordinate; snd lens_pix_coordinate];
         image_pix := image_pix_coordinate;
         ra_image := ra_image_values;
         dec_image := dec_image_values;
         image_amplitude := image_amplitude;
         image_magnitude := image_magnitude;
         radec_at_xy_0 := [ra_at_xy_0; dec_at_xy_0] |}.

(** [point_source_image_properties] (lines 155-223). *)
Definition point_source_image_properties (lens_class : LensClass)
    (band : string) (mag_zero_point delta_pix : R) (num_pix : nat)
  : result Table :=
  let! columns :=
    point_source_columns lens_class band mag_zero_point delta_pix num_pix in
  Table_init columns.

(** The unit normalisation of the observation times (lines 275-280). *)
Definition time_in_days (variability_time : Quantity) : result Quantity :=
  let! time :=
    (if Unit_eqb (unit_of variability_time) u_day then ret variability_time
     else to_day variability_time) in
  if Unit_eqb (unit_of variability_time) u_minute then to_day variability_time
  else ret time.

(** What [point_source_image] returns: one stamp per image, or one list
    of stamps (one per observation time) per image. *)
Inductive point_source_images : Type :=
| Stamps (stamps : list image)
| StampsByEpoch (stamps : list (list image)).

(** The pixel grid of [point_source_image] (lines 251-254), built from
    the pixel scale and the sky coordinate of pixel (0, 0) read back from
    the table. *)
Definition point_source_grid (image_data : Table) (delta_pix : R)
    (num_pix : nat) : result PixelGrid :=
  let transform_matrix := [[delta_pix; 0%R]; [0%R; delta_pix]] in
  let! ra_0 := index (radec_at_xy_0 image_data) 0 in
  let! dec_0 := index (radec_at_xy_0 image_data) 1 in
  ret {| nx := num_pix; ny := num_pix;
         transform_pix2angle := transform_matrix;
         ra_at_xy_0 := ra_0; dec_at_xy_0 := dec_0 |}.

(** One stamp: the two statements of lines 267-271, and again of lines
    309-313, for one image and one amplitude. *)
Definition render_stamp (grid : PixelGrid) (psf_i : PSF) (ra_i dec_i amp_i : R)
  : image :=
  let rendering_class :=
    {| pixel_grid := grid; supersampling_factor := 1; psf := psf_i |} in
  point_source_rendering rendering_class [ra_i] [dec_i] [amp_i].

(** [point_source_image] (lines 225-316). *)
Definition point_source_image (lens_class : LensClass) (band : string)
    (mag_zero_point delta_pix : R) (num_pix : nat) (psf_kernels : list image)
    (variability : option VariabilitySpec) : result point_source_images :=
  let! image_data :=
    point_source_image_properties lens_class band mag_zero_point delta_pix
      num_pix in
  let! grid := point_source_grid image_data delta_pix num_pix in
  let ra_image_values := ra_image image_data in
  let dec_image_values := dec_image image_data in
  let amp := image_amplitude image_data in
  let magnitude := point_source_magnitude lens_class band true in
  let! psf_class :=
    for_in (range (length psf_kernels)) (fun i =>
      let! kernel := index psf_kernels i in
      ret {| psf_type := "PIXEL"; kernel_point_source := kernel |}) in
  match variability with
  | None =>
      let! point_source_images :=
        for_in (range (length psf_class)) (fun i =>
          let! psf_i := index psf_class i in
          let! ra_i := index ra_image_values i in
          let! dec_i := index dec_image_values i in
          let! amp_i := index amp i in
          ret (render_stamp grid psf_i ra_i dec_i amp_i)) in
      ret (Stamps point_source_images)
  | Some variability =>
      let! time := time_in_days (time variability) in
      let kwargs_variability := kwargs_variability variability in
      let! function :=
        (if String.eqb (variability_model variability) "sinusoidal"
         then ret (sinusoidal_variability kwargs_variability)
         else raise UnsupportedModel) in
      let observed_time :=
        map (fun t_obs => image_observer_times lens_class t_obs) (value time) in
      let! transformed_observed_time := np_transpose observed_time in
      let len_time := length (value time) in
      let! variable_mag_array :=
        for_in (range (length magnitude)) (fun i =>
          for_in (range len_time) (fun j =>
            let! mag_i := index magnitude i in
            let! times_i := index transformed_observed_time i in
            let! t_ij := index times_i j in
            ret (mag_i + function t_ij)%R)) in
      let variable_mag :=
        reshape (length magnitude) len_time (concat variable_mag_array) in
      let! variable_amp_array :=
        for_in (range (length magnitude)) (fun i =>
          for_in (range len_time) (fun j =>
            let! mags_i := index variable_mag i in
            let! mag_ij := index mags_i j in
            ret (counts mag_ij mag_zero_point))) in
      let variable_amp :=
        reshape (length magnitude) len_time (concat variable_amp_array) in
      let! point_source_images :=
        for_in (range (length psf_class)) (fun i =>
          for_in (range len_time) (fun j =>
            let! psf_i := index psf_class i in
            let! ra_i := index ra_image_values i in
            let! dec_i := index dec_image_values i in
            let! amps_i := index variable_amp i in
            let! amp_ij := index amps_i j in
            ret (render_stamp grid psf_i ra_i dec_i amp_ij))) in
      ret (StampsByEpoch point_source_images)
  end.

End ImageSimulation.

(** ** Sample collaborators and lens systems *)

Module Sample.

(** A toy renderer: the image model returns a one-pixel image, the pixel
    grid is the identity, and a point-source stamp is the row of the
    amplitudes it was asked to draw. *)
Definition toy_lenstronomy : Lenstronomy := {|
  magnitude2amplitude := fun _ ll src ps => (ll, src, ps);
  image_model_image := fun _ _ => [[1%R]];
  noise_for_model := fun _ _ im => im;
  map_coord2pix := fun _ ra dec => (ra, dec);
  map_pix2coord := fun _ x y => (x, y);
  point_source_rendering := fun _ _ _ amp => [amp]
|}.

(** Kernels with an odd number of rows are accepted, and every keyword
    dictionary is. *)
Definition toy_constructors : Constructors := {|
  PSF_accepts := fun kernel => Nat.odd (length kernel);
  Variability_accepts := fun _ => true
|}.

Definition toy_observations : Observations :=
  {| image_quality_kwargs_single_band := fun _ _ kwargs => kwargs |}.

Definition toy_visualization : Visualization :=
  {| make_lupton_rgb := fun _ _ _ _ => [] |}.

(** [amp * sin(2 pi freq t)], with the parameters read from the keyword
    dictionary. *)
Definition toy_variability : VariabilityModels := {|
  sinusoidal_variability := fun kw t =>
    (default 0 (kw !! "amp") * sin (2 * PI * default 0 (kw !! "freq") * t))%R
|}.

(** A doubly imaged source; the second image arrives ten days late. *)
Definition double_lens : LensClass := {|
  lenstronomy_kwargs := fun _ => (∅, ∅);
  lens_position := (0%R, 0%R);
  image_positions := ([1%R; (-1)%R], [0.5%R; (-0.5)%R]);
  point_source_magnitude := fun _ _ => [21%R; 22%R];
  image_observer_times := fun t => [t; (t + 10)%R]
|}.

(** The same two images with no time delay. *)
Definition double_lens_no_delay : LensClass := {|
  lenstronomy_kwargs := fun _ => (∅, ∅);
  lens_position := (0%R, 0%R);
  image_positions := ([1%R; (-1)%R], [0.5%R; (-0.5)%R]);
  point_source_magnitude := fun _ _ => [21%R; 22%R];
  image_observer_times := fun t => [t; t]
|}.

(** A quadruply imaged source. *)
Definition quad_lens : LensClass := {|
  lenstronomy_kwargs := fun _ => (∅, ∅);
  lens_position := (0%R, 0%R);
  image_positions :=
    ([1%R; (-1)%R; 0%R; 0%R], [0%R; 0%R; 1%R; (-1)%R]);
  point_source_magnitude := fun _ _ => [21%R; 22%R; 23%R; 24%R];
  image_observer_times := fun t => [t; (t + 3)%R; (t + 5)%R; (t + 9)%R]
|}.

Definition kernel : image := [[1%R]].

(** The table of [double_lens] (and of [double_lens_no_delay]) under the
    toy renderer, for the zero point 27. *)
Definition double_lens_table : Table := {|
  deflector_pix := [0%R; 0%R];
  image_pix := [(1%R, 0.5%R); ((-1)%R, (-0.5)%R)];
  ra_image := [1%R; (-1)%R];
  dec_image := [0.5%R; (-0.5)%R];
  image_amplitude := [counts 21 27; counts 22 27];
  image_magnitude := [21%R; 22%R];
  radec_at_xy_0 := [0%R; 0%R]
|}.

(** Two epochs, given in days. *)
Definition epochs_days : Quantity :=
  {| value := [0%R; 30%R]; unit_of := u_day |}.

(** One epoch of one day, given in seconds. *)
Definition one_day_in_seconds : Quantity :=
  {| value := [86400%R]; unit_of := u_second |}.

Definition sinusoidal_spec : VariabilitySpec := {|
  time := epochs_days;
  variability_model := "sinusoidal";
  kwargs_variability := <["amp" := 2%R]> (<["freq" := 0.5%R]> ∅)
|}.

(** A sinusoid of zero amplitude. *)
Definition flat_spec : VariabilitySpec := {|
  time := epochs_days;
  variability_model := "sinusoidal";
  kwargs_variability := <["amp" := 0%R]> (<["freq" := 0.5%R]> ∅)
|}.

Definition linear_spec : VariabilitySpec := {|
  time := epochs_days;
  variability_model := "linear";
  kwargs_variability := ∅
|}.

(** The sinusoidal request with its single epoch given in seconds. *)
Definition sinusoidal_spec_in_seconds : VariabilitySpec := {|
  time := one_day_in_seconds;
  variability_model := "sinusoidal";
  kwargs_variability := <["amp" := 2%R]> (<["freq" := 0.5%R]> ∅)
|}.

(** The sinusoidal request with no epoch at all. *)
Definition sinusoidal_spec_no_epoch : VariabilitySpec := {|
  time := {| value := []; unit_of := u_day |};
  variability_model := "sinusoidal";
  kwargs_variability := <["amp" := 2%R]> (<["freq" := 0.5%R]> ∅)
|}.

(** A doubly imaged source whose descriptor reports the observer time of
    one image only. *)
Definition double_lens_one_time : LensClass := {|
  lenstronomy_kwargs := fun _ => (∅, ∅);
  lens_position := (0%R, 0%R);
  image_positions := ([1%R; (-1)%R], [0.5%R; (-0.5)%R]);
  point_source_magnitude := fun _ _ => [21%R; 22%R];
  image_observer_times := fun t => [t]
|}.

(** A doubly imaged source whose descriptor reports one observer time for
    non-positive times and two otherwise. *)
Definition double_lens_ragged : LensClass := {|
  lenstronomy_kwargs := fun _ => (∅, ∅);
  lens_position := (0%R, 0%R);
  image_positions := ([1%R; (-1)%R], [0.5%R; (-0.5)%R]);
  point_source_magnitude := fun _ _ => [21%R; 22%R];
  image_observer_times :=
    fun t => if Rle_dec t 0 then [t] else [t; (t + 10)%R]
|}.

(** The same request with the observation times given as lengths. *)
Definition linear_spec_in_meters : VariabilitySpec := {|
  time := {| value := [0%R; 30%R]; unit_of := u_meter |};
  variability_model := "linear";
  kwargs_variability := ∅
|}.

End Sample.

(** ** Sequencing and loops *)

Lemma index_lookup {A : Type} (l : list A) (i : nat) (a : A) :
  l !! i = Some a -> index l i = inr a.
Proof. intros Hl. unfold index. now rewrite Hl. Qed.

Lemma index_nth {A : Type} (l : list A) (i : nat) (d : A) :
  i < length l -> index l i = inr (nth i l d).
Proof.
  intros Hi. apply index_lookup.
  destruct (lookup_lt_is_Some_2 l i Hi) as [a Ha].
  rewrite Ha. f_equal. symmetry. now apply nth_lookup_Some.
Qed.

Lemma bind_inr {A B : Type} (m : result A) (k : A -> result B) (b : B) :
  bind m k = inr b -> exists a, m = inr a /\ k a = inr b.
Proof. destruct m as [e | a]; [discriminate |]. intros Hk. now exists a. Qed.

Lemma index_inr {A : Type} (l : list A) (i : nat) (a : A) :
  index l i = inr a -> l !! i = Some a.
Proof.
  unfold index. destruct (l !! i); [| discriminate].
  intros Heq. now injection Heq as ->.
Qed.

(** A loop returns only if its body returned on every element. *)
Lemma for_in_inr {A B : Type} (xs : list A) (body : A -> result B)
    (ys : list B) :
  for_in xs body = inr ys ->
  Forall2 (fun x y => body x = inr y) xs ys.
Proof.
  revert ys. induction xs as [| x xs IH]; intros ys Hrun.
  - cbn in Hrun. injection Hrun as <-. constructor.
  - cbn [for_in] in Hrun.
    apply bind_inr in Hrun as (b & Hx & Hrun).
    apply bind_inr in Hrun as (bs & Hxs & Hrun).
    injection Hrun as <-.
    constructor; [exact Hx | now apply IH].
Qed.

(** A returned loop over [range(n)] has [n] results, result [i] being
    what the body returned for [i]. *)
Lemma for_in_range_inr {B : Type} (n : nat) (body : nat -> result B)
    (ys : list B) :
  for_in (range n) body = inr ys ->
  length ys = n /\ forall i y, ys !! i = Some y -> body i = inr y.
Proof.
  intros Hrun. apply for_in_inr in Hrun. split.
  - apply Forall2_length in Hrun. unfold range in Hrun.
    now rewrite length_seq in Hrun.
  - intros i y Hy.
    destruct (Forall2_lookup_r _ _ _ _ _ Hrun Hy) as (x & Hx & Hbody).
    apply lookup_seq in Hx as [-> _]. exact Hbody.
Qed.

(** A loop whose body returns on every element returns the mapped list. *)
Lemma for_in_map {A B : Type} (xs : list A) (body : A -> result B) (g : A -> B) :
  (forall x, x ∈ xs -> body x = inr (g x)) ->
  for_in xs body = inr (map g xs).
Proof.
  induction xs as [| x xs IH]; intros Hbody; [reflexivity |].
  cbn [for_in map]. rewrite (Hbody x) by constructor.
  cbn [bind]. rewrite IH; [reflexivity |].
  intros y Hy. apply Hbody. now constructor.
Qed.

(** [for i in range(len(l)): out.append(g(l[i]))] is [map g l]. *)
Lemma for_in_range_index {A B : Type} (l : list A) (g : A -> B) :
  for_in (range (length l))
    (fun i => let! x := index l i in ret (g x)) = inr (map g l).
Proof.
  destruct l as [| d l']; [reflexivity |].
  set (l := d :: l'). clearbody l.
  rewrite for_in_map with (g := fun i => g (nth i l d)).
  - f_equal. apply list_eq. intros i.
    rewrite !list_lookup_fmap. unfold range.
    destruct (decide (i < length l)) as [Hi | Hi].
    + rewrite lookup_seq_lt by exact Hi. cbn [fmap option_fmap option_map].
      destruct (lookup_lt_is_Some_2 l i Hi) as [a Ha]. rewrite Ha.
      cbn. do 2 f_equal. now apply nth_lookup_Some.
    + rewrite lookup_seq_ge by lia.
      rewrite lookup_ge_None_2 by lia. reflexivity.
  - intros i Hi. apply elem_of_seq in Hi.
    rewrite index_nth with (d := d) by lia. reflexivity.
Qed.

(** ** The magnitude-to-amplitude conversion *)

(** Adding a zero offset to a magnitude leaves its amplitude unchanged. *)
Lemma counts_plus_0 (mag zp : R) : counts (mag + 0) zp = counts mag zp.
Proof. unfold counts. cbv zeta. f_equal. lra. Qed.

(** ** Tables *)

Lemma Table_init_ok (cols : Table) (n : nat) :
  Forall (eq n) (column_lengths cols) -> Table_init cols = inr cols.
Proof.
  intros Hall. unfold Table_init. cbv zeta.
  destruct (decide _) as [Hsize | _]; [| reflexivity].
  exfalso.
  assert (Hsub : (list_to_set (column_lengths cols) : gset nat) ⊆ {[ n ]}).
  { intros x Hx. apply elem_of_list_to_set in Hx.
    rewrite Forall_forall in Hall. apply elem_of_singleton.
    symmetry. now apply Hall. }
  apply subseteq_size in Hsub. rewrite size_singleton in Hsub. lia.
Qed.

Lemma Table_init_err (cols : Table) (a b : nat) :
  a ∈ column_lengths cols -> b ∈ column_lengths cols -> a <> b ->
  Table_init cols = inl InconsistentColumnLengths.
Proof.
  intros Ha Hb Hab. unfold Table_init. cbv zeta.
  destruct (decide _) as [_ | Hsize]; [reflexivity |].
  exfalso. apply Hsize.
  assert (Hsub : ({[ a ]} ∪ {[ b ]} : gset nat)
                   ⊆ list_to_set (column_lengths cols)).
  { intros x Hx. apply elem_of_list_to_set.
    apply elem_of_union in Hx as [Hx | Hx];
      apply elem_of_singleton in Hx; now subst. }
  apply subseteq_size in Hsub.
  rewrite size_union in Hsub by set_solver.
  rewrite !size_singleton in Hsub. lia.
Qed.

(** A table that was built has columns of one length, its row count. *)
Lemma Table_init_inr (cols t : Table) :
  Table_init cols = inr t ->
  t = cols /\ Forall (eq (nrows t)) (column_lengths t).
Proof.
  intros Hinit.
  destruct (decide (Forall (eq (nrows cols)) (column_lengths cols)))
    as [Hall | Hnot].
  - rewrite (Table_init_ok cols _ Hall) in Hinit.
    injection Hinit as <-. now split.
  - exfalso. apply not_Forall_Exists in Hnot; [| intros x; apply _].
    apply Exists_exists in Hnot as (b & Hb & Hne).
    rewrite (Table_init_err cols (nrows cols) b) in Hinit;
      [discriminate | | exact Hb | exact Hne].
    unfold column_lengths, nrows. constructor.
Qed.

(** ** The point-source property extractor *)

Section Properties.

Context {lenstronomy : Lenstronomy}.

Variables (lens_class : LensClass) (band : string).
Variables (mag_zero_point delta_pix : R) (num_pix : nat).

Local Abbreviation sim_api :=
  (band_sim_api lens_class band mag_zero_point delta_pix num_pix).

(** The seven columns in closed form: the loops of lines 193-202 are maps
    over the image positions and magnitudes. *)
Lemma point_source_columns_eq :
  point_source_columns lens_class band mag_zero_point delta_pix num_pix =
  inr {| deflector_pix :=
           [ fst (map_coord2pix sim_api (fst (lens_position lens_class))
                    (snd (lens_position lens_class)));
             snd (map_coord2pix sim_api (fst (lens_position lens_class))
                    (snd (lens_position lens_class))) ];
         image_pix :=
           map (fun p => map_coord2pix sim_api (fst p) (snd p))
               (zip (fst (image_positions lens_class))
                    (snd (image_positions lens_class)));
         ra_image := fst (image_positions lens_class);
         dec_image := snd (image_positions lens_class);
         image_amplitude :=
           map (fun mag => counts mag mag_zero_point)
               (point_source_magnitude lens_class band true);
         image_magnitude := point_source_magnitude lens_class band true;
         radec_at_xy_0 :=
           [ fst (map_pix2coord sim_api 0 0);
             snd (map_pix2coord sim_api 0 0) ] |}.
Proof.
  unfold point_source_columns. cbv zeta.
  destruct (map_pix2coord sim_api 0 0) as [ra0 dec0].
  rewrite for_in_range_index. cbn [bind ret fst snd].
  do 2 f_equal. apply map_ext. now intros [ra dec].
Qed.

Local Abbreviation expected_columns :=
  {| deflector_pix :=
       [ fst (map_coord2pix sim_api (fst (lens_position lens_class))
                (snd (lens_position lens_class)));
         snd (map_coord2pix sim_api (fst (lens_position lens_class))
                (snd (lens_position lens_class))) ];
     image_pix :=
       map (fun p => map_coord2pix sim_api (fst p) (snd p))
           (zip (fst (image_positions lens_class))
                (snd (image_positions lens_class)));
     ra_image := fst (image_positions lens_class);
     dec_image := snd (image_positions lens_class);
     image_amplitude :=
       map (fun mag => counts mag mag_zero_point)
           (point_source_magnitude lens_class band true);
     image_magnitude := point_source_magnitude lens_class band true;
     radec_at_xy_0 :=
       [ fst (map_pix2coord sim_api 0 0);
         snd (map_pix2coord sim_api 0 0) ] |}.

Lemma point_source_image_properties_eq :
  point_source_image_properties lens_class band mag_zero_point delta_pix
    num_pix = Table_init expected_columns.
Proof.
  unfold point_source_image_properties.
  now rewrite point_source_columns_eq.
Qed.

(** The lengths of the seven columns of a lens with [n] images. *)
Lemma expected_column_lengths (n : nat) :
  length (fst (image_positions lens_class)) = n ->
  length (snd (image_positions lens_class)) = n ->
  length (point_source_magnitude lens_class band true) = n ->
  column_lengths expected_columns = [2; n; n; n; n; n; 2].
Proof.
  intros Hra Hdec Hmag. unfold column_lengths.
  cbn [deflector_pix image_pix ra_image dec_image image_amplitude
       image_magnitude radec_at_xy_0 length].
  rewrite !length_map, length_zip, Hra, Hdec, Hmag.
  now rewrite Nat.min_id.
Qed.

(** What a returned table holds, column by column. *)
Lemma point_source_image_properties_inr (t : Table) :
  point_source_image_properties lens_class band mag_zero_point delta_pix
    num_pix = inr t ->
  deflector_pix t =
    [ fst (map_coord2pix sim_api (fst (lens_position lens_class))
             (snd (lens_position lens_class)));
      snd (map_coord2pix sim_api (fst (lens_position lens_class))
             (snd (lens_position lens_class))) ] /\
  image_pix t =
    map (fun p => map_coord2pix sim_api (fst p) (snd p))
        (zip (fst (image_positions lens_class))
             (snd (image_positions lens_class))) /\
  ra_image t = fst (image_positions lens_class) /\
  dec_image t = snd (image_positions lens_class) /\
  image_amplitude t =
    map (fun mag => counts mag mag_zero_point)
        (point_source_magnitude lens_class band true) /\
  image_magnitude t = point_source_magnitude lens_class band true /\
  radec_at_xy_0 t =
    [ fst (map_pix2coord sim_api 0 0); snd (map_pix2coord sim_api 0 0) ] /\
  nrows t = length (point_source_magnitude lens_class band true) /\
  Forall (eq (nrows t)) (column_lengths t).
Proof.
  rewrite point_source_image_properties_eq. intros Hinit.
  apply Table_init_inr in Hinit as [-> Hall].
  repeat (split; [reflexivity |]).
  split; [| exact Hall].
  rewrite Forall_forall in Hall.
  apply (Hall (length (point_source_magnitude lens_class band true))).
  unfold column_lengths. cbn [image_magnitude].
  do 5 apply list_elem_of_further. apply list_elem_of_here.
Qed.

(** C5, as the code has it. When [point_source_image_properties] returns
    a table, each of its outputs is one named column of that table: the
    deflector pixel coordinate, the pixel coordinates of the images, their
    right ascensions and declinations, their amplitudes and magnitudes,
    and the sky coordinate of pixel (0, 0). The table has one row per
    lensed image (not a single row), and every column has that many
    entries. *)
Theorem properties_table_columns (t : Table) :
  point_source_image_properties lens_class band mag_zero_point delta_pix
    num_pix = inr t ->
  deflector_pix t =
    [ fst (map_coord2pix sim_api (fst (lens_position lens_class))
             (snd (lens_position lens_class)));
      snd (map_coord2pix sim_api (fst (lens_position lens_class))
             (snd (lens_position lens_class))) ] /\
  image_pix t =
    map (fun p => map_coord2pix sim_api (fst p) (snd p))
        (zip (fst (image_positions lens_class))
             (snd (image_positions lens_class))) /\
  ra_image t = fst (image_positions lens_class) /\
  dec_image t = snd (image_positions lens_class) /\
  image_amplitude t =
    map (fun mag => counts mag mag_zero_point)
        (point_source_magnitude lens_class band true) /\
  image_magnitude t = point_source_magnitude lens_class band true /\
  radec_at_xy_0 t =
    [ fst (map_pix2coord sim_api 0 0); snd (map_pix2coord sim_api 0 0) ] /\
  nrows t = length (point_source_magnitude lens_class band true) /\
  Forall (eq (nrows t)) (column_lengths t).
Proof. apply point_source_image_properties_inr. Qed.

(** C6. For a lens with [n] images the deflector-pixel and pixel-origin
    columns have length 2 and the five per-image columns have length [n];
    the table is built exactly when [n = 2], with two rows, and for any
    other [n] the function raises the inconsistent-lengths error. *)
Theorem properties_only_for_two_images (n : nat) :
  length (fst (image_positions lens_class)) = n ->
  length (snd (image_positions lens_class)) = n ->
  length (point_source_magnitude lens_class band true) = n ->
  (exists cols,
     point_source_columns lens_class band mag_zero_point delta_pix num_pix
       = inr cols /\
     length (deflector_pix cols) = 2 /\
     length (radec_at_xy_0 cols) = 2 /\
     length (image_pix cols) = n /\
     length (ra_image cols) = n /\
     length (dec_image cols) = n /\
     length (image_amplitude cols) = n /\
     length (image_magnitude cols) = n) /\
  (n = 2 ->
   exists t,
     point_source_image_properties lens_class band mag_zero_point delta_pix
       num_pix = inr t /\ nrows t = 2) /\
  (n <> 2 ->
   point_source_image_properties lens_class band mag_zero_point delta_pix
     num_pix = inl InconsistentColumnLengths).
Proof.
  intros Hra Hdec Hmag.
  pose proof (expected_column_lengths n Hra Hdec Hmag) as Hlen.
  split; [| split].
  - eexists. split; [apply point_source_columns_eq |].
    cbn [deflector_pix image_pix ra_image dec_image image_amplitude
         image_magnitude radec_at_xy_0].
    rewrite !length_map, length_zip, Hra, Hdec, Hmag, Nat.min_id.
    repeat split; reflexivity.
  - intros ->. exists expected_columns. split; [| reflexivity].
    rewrite point_source_image_properties_eq.
    apply Table_init_ok with (n := 2).
    rewrite Hlen. repeat constructor.
  - intros Hn. rewrite point_source_image_properties_eq.
    apply Table_init_err with (a := 2) (b := n); [| | congruence].
    + rewrite Hlen. apply list_elem_of_here.
    + rewrite Hlen. apply list_elem_of_further, list_elem_of_here.
Qed.

End Properties.

(** ** Rendering requests *)

(** A lookup in a dictionary literal: skip the other keys, read the key. *)
Ltac lookup_literal :=
  repeat (rewrite lookup_insert_ne by discriminate);
  apply lookup_insert_eq.

Section Rendering.

Context {lenstronomy : Lenstronomy} {observations : Observations}
        {visualization : Visualization}.

Variables (lens_class : LensClass).
Variables (mag_zero_point delta_pix : R) (num_pix : nat).

Lemma band_sim_api_band (band : string) :
  kwargs_single_band
    (band_sim_api lens_class band mag_zero_point delta_pix num_pix)
  = kwargs_band delta_pix mag_zero_point.
Proof.
  unfold band_sim_api. now destruct (lenstronomy_kwargs lens_class band).
Qed.

(** C10. [sharp_image] returns what the image model renders for a request
    that is unconvolved, has supersampling factor 1 as its only numerics
    setting, leaves point sources out, includes the source light, and
    includes the deflector light exactly when [with_deflector] is true; no
    noise is drawn. The band configuration of the request has background
    noise 0, PSF type NONE and exposure time 1, with the pixel scale and
    zero point of the caller. *)
Theorem sharp_image_request (band : string) (with_deflector : bool) :
  sharp_image lens_class band mag_zero_point delta_pix num_pix with_deflector
  = image_model_image
      (sharp_image_model lens_class band mag_zero_point delta_pix num_pix)
      (sharp_image_call lens_class band mag_zero_point delta_pix num_pix
         with_deflector) /\
  kwargs_numerics
    (sharp_image_model lens_class band mag_zero_point delta_pix num_pix)
  = <["supersampling_factor" := 1%Z]> ∅ /\
  unconvolved
    (sharp_image_call lens_class band mag_zero_point delta_pix num_pix
       with_deflector) = true /\
  point_source_add
    (sharp_image_call lens_class band mag_zero_point delta_pix num_pix
       with_deflector) = false /\
  lens_light_add
    (sharp_image_call lens_class band mag_zero_point delta_pix num_pix
       with_deflector) = with_deflector /\
  source_add
    (sharp_image_call lens_class band mag_zero_point delta_pix num_pix
       with_deflector) = true /\
  kwargs_single_band
    (image_model_api
       (sharp_image_model lens_class band mag_zero_point delta_pix num_pix))
  = kwargs_band delta_pix mag_zero_point /\
  kwargs_band delta_pix mag_zero_point !! "background_noise"
  = Some (PyInt 0) /\
  kwargs_band delta_pix mag_zero_point !! "psf_type" = Some (PyStr "NONE") /\
  kwargs_band delta_pix mag_zero_point !! "exposure_time" = Some (PyInt 1) /\
  kwargs_band delta_pix mag_zero_point !! "pixel_scale"
  = Some (PyFloat delta_pix) /\
  kwargs_band delta_pix mag_zero_point !! "magnitude_zero_point"
  = Some (PyFloat mag_zero_point).
Proof.
  split; [reflexivity |]. split; [reflexivity |].
  assert (Hcall : forall wd,
    let call := sharp_image_call lens_class band mag_zero_point delta_pix
                  num_pix wd in
    unconvolved call = true /\ point_source_add call = false /\
    lens_light_add call = wd /\ source_add call = true).
  { intros wd. unfold sharp_image_call.
    destruct (lenstronomy_kwargs lens_class band) as [km kp].
    destruct (magnitude2amplitude _ _ _ _) as [[ll src] ps].
    cbn. tauto. }
  destruct (Hcall with_deflector) as (Hu & Hps & Hll & Hsrc).
  repeat (split; [assumption |]).
  split; [apply band_sim_api_band |].
  unfold kwargs_band. repeat split; lookup_literal.
Qed.

(** C8. For a band list [r; g; b], [sharp_rgb_image] returns what
    [rgb_image_from_image_list] returns for the three sharp images of the
    bands r, g and b (deflector light included) and the stretch 0.5: both
    are [make_lupton_rgb] of the three images, with nothing else done to
    them. *)
Theorem sharp_rgb_image_composite (band_r band_g band_b : string) :
  sharp_rgb_image lens_class [band_r; band_g; band_b] mag_zero_point
    delta_pix num_pix
  = rgb_image_from_image_list
      [ sharp_image lens_class band_r mag_zero_point delta_pix num_pix true;
        sharp_image lens_class band_g mag_zero_point delta_pix num_pix true;
        sharp_image lens_class band_b mag_zero_point delta_pix num_pix true ]
      0.5 /\
  sharp_rgb_image lens_class [band_r; band_g; band_b] mag_zero_point
    delta_pix num_pix
  = inr (make_lupton_rgb
           (sharp_image lens_class band_r mag_zero_point delta_pix num_pix
              true)
           (sharp_image lens_class band_g mag_zero_point delta_pix num_pix
              true)
           (sharp_image lens_class band_b mag_zero_point delta_pix num_pix
              true)
           0.5) /\
  forall (image_r image_g image_b : image) (stretch : R),
    rgb_image_from_image_list [image_r; image_g; image_b] stretch
    = inr (make_lupton_rgb image_r image_g image_b stretch).
Proof. repeat split. Qed.

(** C9. [simulate_image] renders with the numerics
    [supersampling_factor = 3] and [point_source_supersampling_factor = 1]
    and nothing else in the numerics dictionary. Without [add_noise] it
    returns the rendered image as it is. With [add_noise] it returns the
    pixel-wise sum of the rendered image and of the noise map drawn for
    that image: the pixel in row [i] and column [j] is the rendered pixel
    plus the noise at that place. *)
Theorem simulate_image_numerics (rng : rng_state) (band observatory : string)
    (kwargs : gmap string pyval) :
  kwargs_numerics
    (simulate_image_model lens_class band num_pix observatory kwargs)
  = <["point_source_supersampling_factor" := 1%Z]>
      (<["supersampling_factor" := 3%Z]> ∅) /\
  kwargs_numerics
    (simulate_image_model lens_class band num_pix observatory kwargs)
    !! "supersampling_factor" = Some 3%Z /\
  kwargs_numerics
    (simulate_image_model lens_class band num_pix observatory kwargs)
    !! "point_source_supersampling_factor" = Some 1%Z /\
  simulate_image rng lens_class band num_pix false observatory kwargs
  = image_model_image
      (simulate_image_model lens_class band num_pix observatory kwargs)
      (simulate_image_call lens_class band num_pix observatory kwargs) /\
  simulate_image rng lens_class band num_pix true observatory kwargs
  = zip_with (zip_with Rplus)
      (image_model_image
         (simulate_image_model lens_class band num_pix observatory kwargs)
         (simulate_image_call lens_class band num_pix observatory kwargs))
      (noise_for_model
         (image_model_api
            (simulate_image_model lens_class band num_pix observatory kwargs))
         rng
         (image_model_image
            (simulate_image_model lens_class band num_pix observatory kwargs)
            (simulate_image_call lens_class band num_pix observatory
               kwargs))) /\
  forall (i j : nat) (row noise_row : list R) (pixel noise : R),
    (image_model_image
       (simulate_image_model lens_class band num_pix observatory kwargs)
       (simulate_image_call lens_class band num_pix observatory kwargs)
     : list (list R)) !! i = Some row ->
    row !! j = Some pixel ->
    (noise_for_model
       (image_model_api
          (simulate_image_model lens_class band num_pix observatory kwargs))
       rng
       (image_model_image
          (simulate_image_model lens_class band num_pix observatory kwargs)
          (simulate_image_call lens_class band num_pix observatory kwargs))
     : list (list R)) !! i = Some noise_row ->
    noise_row !! j = Some noise ->
    exists noisy_row : list R,
      (simulate_image rng lens_class band num_pix true observatory kwargs
       : list (list R)) !! i = Some noisy_row /\
      noisy_row !! j = Some (pixel + noise)%R.
Proof.
  assert (Hnum :
    kwargs_numerics
      (simulate_image_model lens_class band num_pix observatory kwargs)
    = <["point_source_supersampling_factor" := 1%Z]>
        (<["supersampling_factor" := 3%Z]> ∅)).
  { unfold simulate_image_model.
    now destruct (lenstronomy_kwargs lens_class band). }
  rewrite !Hnum. split; [reflexivity |].
  split; [lookup_literal |]. split; [lookup_literal |].
  split; [reflexivity |]. split; [reflexivity |].
  intros i j row noise_row pixel noise Hrow Hpixel Hnoise_row Hnoise.
  exists (zip_with Rplus row noise_row). split.
  - unfold simulate_image, np_add. cbv zeta.
    rewrite lookup_zip_with, Hrow. cbn [mbind option_bind].
    rewrite Hnoise_row. reflexivity.
  - rewrite lookup_zip_with, Hpixel. cbn [mbind option_bind].
    rewrite Hnoise. reflexivity.
Qed.

End Rendering.

(** ** The unit of the observation times *)

(** C4, as the code has it. A time sequence in days is used as it is;
    a sequence in any other unit, seconds and minutes alike, goes through
    [to(u.day)]: it is converted to days when the unit is a time, and the
    conversion error is raised when it is not. The separate test for
    minutes changes nothing. *)
Theorem time_in_days_converts (q : Quantity) :
  time_in_days q =
    match unit_of q with
    | u_day => inr q
    | _ => to_day q
    end.
Proof.
  unfold time_in_days.
  destruct (unit_of q) eqn:Hu; cbn [Unit_eqb bind ret]; try reflexivity;
    now destruct (to_day q).
Qed.

(** ** Reshaping and transposition *)

Lemma reshape_concat (rows : list (list R)) (n k : nat) :
  length rows = n ->
  Forall (fun r => length r = k) rows ->
  reshape n k (concat rows) = rows.
Proof.
  intros Hn Hall. revert n Hn.
  induction Hall as [| r rows Hr Hrows IH]; intros n Hn; subst n;
    [reflexivity |].
  cbn [length reshape concat]. subst k.
  rewrite take_app_length, drop_app_length.
  now rewrite IH.
Qed.

Lemma index_map_range {A : Type} (g : nat -> A) (n i : nat) :
  i < n -> index (map g (range n)) i = inr (g i).
Proof.
  intros Hi. apply index_lookup. unfold range.
  rewrite list_lookup_fmap, lookup_seq_lt by exact Hi. reflexivity.
Qed.

Lemma nth_map_lt {A B : Type} (g : A -> B) (l : list A) (i : nat)
    (d : A) (d' : B) :
  i < length l -> nth i (map g l) d' = g (nth i l d).
Proof.
  intros Hi. rewrite nth_indep with (d' := g d).
  - apply map_nth.
  - now rewrite length_map.
Qed.

(** The transpose of [k] rows of [n] numbers has [n] rows of [k] numbers,
    row [i] holding entry [i] of every input row. With no input row the
    transpose is empty. *)
Lemma np_transpose_rect {T : Type} (row_of : T -> list R) (ts : list T)
    (n : nat) (d : T) :
  (forall t, t ∈ ts -> length (row_of t) = n) ->
  exists rows,
    np_transpose (map row_of ts) = inr rows /\
    forall i j, i < n -> j < length ts ->
      exists row, rows !! i = Some row /\
                  row !! j = Some (nth i (row_of (nth j ts d)) 0%R).
Proof.
  intros Hrect. destruct ts as [| t0 ts'].
  - exists []. split; [reflexivity |]. cbn [length]. lia.
  - set (ts := t0 :: ts') in *.
    exists (map (fun i => map (fun r => nth i r 0%R) (map row_of ts))
                (range n)).
    split.
    + unfold np_transpose. cbn [map ts]. fold ts.
      change (row_of t0 :: map row_of ts') with (map row_of ts).
      rewrite (Hrect t0) by constructor.
      replace (forallb _ _) with true; [reflexivity |].
      symmetry. apply forallb_forall. intros r Hr.
      apply in_map_iff in Hr as (t & <- & Ht).
      apply Nat.eqb_eq, Hrect. now apply list_elem_of_In.
    + clearbody ts. intros i j Hi Hj. eexists. split.
      * unfold range. rewrite list_lookup_fmap, lookup_seq_lt by exact Hi.
        reflexivity.
      * rewrite !list_lookup_fmap.
        destruct (lookup_lt_is_Some_2 ts j Hj) as [t Ht].
        rewrite Ht. cbn. do 3 f_equal. symmetry.
        now apply nth_lookup_Some.
Qed.

(** Every entry of the transpose is an entry of an input row, with the
    two indices exchanged. *)
Lemma np_transpose_inr (rows transposed : list (list R)) :
  np_transpose rows = inr transposed ->
  forall i j r x,
    transposed !! i = Some r -> r !! j = Some x ->
    exists row, rows !! j = Some row /\ row !! i = Some x.
Proof.
  unfold np_transpose. destruct rows as [| r0 rest] eqn:Hrows.
  - intros Heq. injection Heq as <-. intros i j r x Hr. discriminate.
  - rewrite <- Hrows. clear rest Hrows.
    destruct (forallb _ rows) eqn:Hall; [| discriminate].
    intros Heq. injection Heq as <-. intros i j r x Hr Hx.
    unfold range in Hr.
    apply list_lookup_fmap_Some in Hr as (i' & -> & Hi).
    apply lookup_seq in Hi as [-> Hi]. cbn [Nat.add] in *.
    apply list_lookup_fmap_Some in Hx as (row & -> & Hrow).
    exists row. split; [exact Hrow |].
    assert (Hlen : length row = length r0).
    { apply Nat.eqb_eq.
      apply (proj1 (forallb_forall _ rows) Hall).
      apply list_elem_of_In. eapply list_elem_of_lookup_2. exact Hrow. }
    destruct (lookup_lt_is_Some_2 row i ltac:(lia)) as [y Hy].
    rewrite Hy. f_equal. symmetry. now apply nth_lookup_Some.
Qed.

(** ** The point-source image renderer *)

Section PointSources.

Context {lenstronomy : Lenstronomy} {variability_models : VariabilityModels}.

Variables (lens_class : LensClass) (band : string).
Variables (mag_zero_point delta_pix : R) (num_pix : nat).
Variable psf_kernels : list image.

Local Abbreviation sim_api :=
  (band_sim_api lens_class band mag_zero_point delta_pix num_pix).
Local Abbreviation mags := (point_source_magnitude lens_class band true).
Local Abbreviation ras := (fst (image_positions lens_class)).
Local Abbreviation decs := (snd (image_positions lens_class)).
Local Abbreviation the_grid :=
  {| nx := num_pix; ny := num_pix;
     transform_pix2angle := [[delta_pix; 0%R]; [0%R; delta_pix]];
     ra_at_xy_0 := fst (map_pix2coord sim_api 0 0);
     dec_at_xy_0 := snd (map_pix2coord sim_api 0 0) |}.
Local Abbreviation psf_of kernel :=
  {| psf_type := "PIXEL"; kernel_point_source := kernel |}.

(** The table is what the extractor returned. *)
Variable image_data : Table.
Hypothesis Himage_data :
  point_source_image_properties lens_class band mag_zero_point delta_pix
    num_pix = inr image_data.

Lemma point_source_grid_eq :
  point_source_grid image_data delta_pix num_pix = inr the_grid.
Proof.
  destruct (point_source_image_properties_inr _ _ _ _ _ _ Himage_data)
    as (_ & _ & _ & _ & _ & _ & Hradec & _).
  unfold point_source_grid. now rewrite Hradec.
Qed.

Lemma image_data_lengths :
  length (ra_image image_data) = length mags /\
  length (dec_image image_data) = length mags /\
  length (image_amplitude image_data) = length mags.
Proof.
  destruct (point_source_image_properties_inr _ _ _ _ _ _ Himage_data)
    as (_ & _ & _ & _ & _ & _ & _ & Hrows & Hall).
  rewrite Forall_forall in Hall. rewrite <- Hrows.
  unfold column_lengths in Hall.
  repeat split; symmetry; apply Hall;
    repeat (first [apply list_elem_of_here | apply list_elem_of_further]).
Qed.

Lemma psf_class_eq :
  for_in (range (length psf_kernels)) (fun i =>
    let! kernel := index psf_kernels i in
    ret {| psf_type := "PIXEL"; kernel_point_source := kernel |})
  = inr (map (fun kernel => psf_of kernel) psf_kernels).
Proof. apply (for_in_range_index psf_kernels (fun kernel => psf_of kernel)). Qed.

(** Without variability: one stamp per kernel, at the amplitude of the
    table. *)
Lemma point_source_image_static :
  length psf_kernels <= length mags ->
  point_source_image lens_class band mag_zero_point delta_pix num_pix
    psf_kernels None
  = inr (Stamps
      (map (fun i =>
              render_stamp the_grid (psf_of (nth i psf_kernels []))
                (nth i ras 0%R) (nth i decs 0%R)
                (counts (nth i mags 0%R) mag_zero_point))
           (range (length psf_kernels)))).
Proof.
  intros Hlen.
  destruct image_data_lengths as (Hra & Hdec & Hamp).
  destruct (point_source_image_properties_inr _ _ _ _ _ _ Himage_data)
    as (_ & _ & Hras & Hdecs & Hamps & _).
  unfold point_source_image. rewrite Himage_data. cbn [bind].
  rewrite point_source_grid_eq. cbn [bind].
  rewrite psf_class_eq. cbn [bind]. rewrite length_map.
  rewrite for_in_map with
    (g := fun i =>
            render_stamp the_grid (psf_of (nth i psf_kernels []))
              (nth i ras 0%R) (nth i decs 0%R)
              (counts (nth i mags 0%R) mag_zero_point));
    [reflexivity |].
  intros i Hi. apply elem_of_seq in Hi.
  rewrite index_nth with (d := psf_of []) by (rewrite length_map; lia).
  rewrite index_nth with (d := 0%R) by lia.
  rewrite index_nth with (d := 0%R) by lia.
  rewrite index_nth with (d := 0%R) by lia.
  cbn [bind ret]. rewrite Hras, Hdecs, Hamps.
  rewrite (nth_map_lt _ psf_kernels i []) by lia.
  rewrite (nth_map_lt _ mags i 0%R) by lia.
  reflexivity.
Qed.

(** With variability. *)
Variable variability : VariabilitySpec.
Variable time_days : Quantity.
Hypothesis Htime : time_in_days (time variability) = inr time_days.
Hypothesis Hrect :
  forall t, t ∈ value time_days ->
            length (image_observer_times lens_class t) = length mags.

Local Abbreviation epochs := (value time_days).
Local Abbreviation fn :=
  (sinusoidal_variability (kwargs_variability variability)).
Local Abbreviation observer_time i j :=
  (nth i (image_observer_times lens_class (nth j epochs 0%R)) 0%R).

Lemma rows_of_length {A : Type} (g : nat -> nat -> A) (n k : nat) :
  Forall (fun r => length r = k)
    (map (fun i => map (fun j => g i j) (range k)) (range n)).
Proof.
  apply Forall_forall. intros r Hr.
  apply list_elem_of_In, in_map_iff in Hr as (i & <- & _).
  unfold range. now rewrite length_map, length_seq.
Qed.

(** One list of stamps per kernel, one stamp per epoch, at the amplitude
    of the magnitude shifted by the variability at the observer time. *)
Lemma point_source_image_variable :
  variability_model variability = "sinusoidal" ->
  length psf_kernels <= length mags ->
  point_source_image lens_class band mag_zero_point delta_pix num_pix
    psf_kernels (Some variability)
  = inr (StampsByEpoch
      (map (fun i =>
         map (fun j =>
                render_stamp the_grid (psf_of (nth i psf_kernels []))
                  (nth i ras 0%R) (nth i decs 0%R)
                  (counts (nth i mags 0%R + fn (observer_time i j))%R
                     mag_zero_point))
             (range (length epochs)))
         (range (length psf_kernels)))).
Proof.
  intros Hmodel Hlen.
  destruct image_data_lengths as (Hra & Hdec & Hamp).
  destruct (point_source_image_properties_inr _ _ _ _ _ _ Himage_data)
    as (_ & _ & Hras & Hdecs & _).
  destruct (np_transpose_rect
              (fun t_obs => image_observer_times lens_class t_obs) epochs
              (length mags) 0%R Hrect) as (T & HT & Hlook).
  cbv beta in Hlook.
  unfold point_source_image. rewrite Himage_data. cbn [bind].
  rewrite point_source_grid_eq. cbn [bind].
  rewrite psf_class_eq. cbn [bind]. rewrite Htime. cbn [bind].
  rewrite Hmodel, String.eqb_refl. cbn [bind ret]. cbv zeta.
  rewrite HT. cbn [bind].
  (* the magnitudes *)
  rewrite for_in_map with
    (g := fun i => map (fun j => (nth i mags 0%R + fn (observer_time i j))%R)
                       (range (length epochs))).
  2:{ intros i Hi. apply elem_of_seq in Hi.
      apply for_in_map. intros j Hj. apply elem_of_seq in Hj.
      rewrite index_nth with (d := 0%R) by lia. cbn [bind].
      destruct (Hlook i j) as (row & Hrow & Hcell); [lia | lia |].
      rewrite (index_lookup _ _ _ Hrow). cbn [bind].
      rewrite (index_lookup _ _ _ Hcell). reflexivity. }
  cbn [bind].
  rewrite reshape_concat;
    [| unfold range; now rewrite length_map, length_seq
     | apply rows_of_length].
  (* the amplitudes *)
  rewrite for_in_map with
    (g := fun i => map (fun j => counts (nth i mags 0%R + fn (observer_time i j))%R
                                   mag_zero_point)
                       (range (length epochs))).
  2:{ intros i Hi. apply elem_of_seq in Hi.
      apply for_in_map. intros j Hj. apply elem_of_seq in Hj.
      rewrite index_map_range by lia. cbn [bind].
      rewrite index_map_range by lia. reflexivity. }
  cbn [bind].
  rewrite reshape_concat;
    [| unfold range; now rewrite length_map, length_seq
     | apply rows_of_length].
  (* the stamps *)
  rewrite length_map.
  rewrite for_in_map with
    (g := fun i =>
            map (fun j =>
                   render_stamp the_grid (psf_of (nth i psf_kernels []))
                     (nth i ras 0%R) (nth i decs 0%R)
                     (counts (nth i mags 0%R + fn (observer_time i j))%R
                        mag_zero_point))
                (range (length epochs)));
    [reflexivity |].
  intros i Hi. apply elem_of_seq in Hi.
  apply for_in_map. intros j Hj. apply elem_of_seq in Hj.
  rewrite index_nth with (d := psf_of []) by (rewrite length_map; lia).
  rewrite index_nth with (d := 0%R) by lia.
  rewrite index_nth with (d := 0%R) by lia.
  cbn [bind]. rewrite index_map_range by lia. cbn [bind].
  rewrite index_map_range by lia. cbn [bind ret].
  rewrite Hras, Hdecs.
  rewrite (nth_map_lt _ psf_kernels i []) by lia.
  reflexivity.
Qed.

End PointSources.

(** *** What a returned call has computed *)

Section PointSourcesReturned.
Context {lenstronomy : Lenstronomy} {variability_models : VariabilityModels}.

Variables (lens_class : LensClass) (band : string).
Variables (mag_zero_point delta_pix : R) (num_pix : nat).
Variable psf_kernels : list image.

Local Abbreviation mags := (point_source_magnitude lens_class band true).
Local Abbreviation psf_of kernel :=
  {| psf_type := "PIXEL"; kernel_point_source := kernel |}.

Lemma psf_class_lookup (psf_class : list PSF) (i : nat) (psf_i : PSF) :
  for_in (range (length psf_kernels)) (fun i =>
    let! kernel := index psf_kernels i in
    ret {| psf_type := "PIXEL"; kernel_point_source := kernel |})
  = inr psf_class ->
  psf_class !! i = Some psf_i ->
  exists kernel, psf_kernels !! i = Some kernel /\ psf_i = psf_of kernel.
Proof.
  rewrite psf_class_eq. intros Heq. injection Heq as <-. intros Hi.
  apply list_lookup_fmap_Some in Hi as (kernel & -> & Hk).
  now exists kernel.
Qed.

Lemma point_source_image_static_inr (res : point_source_images) :
  point_source_image lens_class band mag_zero_point delta_pix num_pix
    psf_kernels None = inr res ->
  exists image_data grid stamps,
    point_source_image_properties lens_class band mag_zero_point delta_pix
      num_pix = inr image_data /\
    point_source_grid image_data delta_pix num_pix = inr grid /\
    res = Stamps stamps /\
    length stamps = length psf_kernels /\
    forall i stamp,
      stamps !! i = Some stamp ->
      exists kernel mag ra dec,
        psf_kernels !! i = Some kernel /\
        mags !! i = Some mag /\
        ra_image image_data !! i = Some ra /\
        dec_image image_data !! i = Some dec /\
        image_amplitude image_data !! i = Some (counts mag mag_zero_point) /\
        stamp = render_stamp grid (psf_of kernel) ra dec
                  (counts mag mag_zero_point).
Proof.
  unfold point_source_image. intros Hrun.
  apply bind_inr in Hrun as (image_data & Htbl & Hrun).
  apply bind_inr in Hrun as (grid & Hgrid & Hrun).
  apply bind_inr in Hrun as (psf_class & Hpsf & Hrun).
  apply bind_inr in Hrun as (stamps & Hloop & Hrun).
  injection Hrun as <-.
  exists image_data, grid, stamps.
  repeat (split; [assumption || reflexivity |]).
  apply for_in_range_inr in Hloop as [Hlen Hbody].
  assert (Hpsf_len : length psf_class = length psf_kernels).
  { rewrite psf_class_eq in Hpsf. injection Hpsf as <-.
    apply length_map. }
  split; [congruence |].
  intros i stamp Hi. apply Hbody in Hi.
  apply bind_inr in Hi as (psf_i & Hpsf_i & Hi).
  apply bind_inr in Hi as (ra & Hra & Hi).
  apply bind_inr in Hi as (dec & Hdec & Hi).
  apply bind_inr in Hi as (amp & Hamp & Hi).
  injection Hi as <-.
  apply index_inr in Hpsf_i, Hra, Hdec, Hamp.
  destruct (psf_class_lookup _ _ _ Hpsf Hpsf_i) as (kernel & Hk & ->).
  destruct (point_source_image_properties_inr _ _ _ _ _ _ Htbl)
    as (_ & _ & _ & _ & Hamps & _).
  pose proof Hamp as Hamp'.
  rewrite Hamps in Hamp'.
  apply list_lookup_fmap_Some in Hamp' as (mag & -> & Hmag).
  exists kernel, mag, ra, dec. repeat split; assumption || reflexivity.
Qed.

Variable variability : VariabilitySpec.
Local Abbreviation fn :=
  (sinusoidal_variability (kwargs_variability variability)).

Lemma point_source_image_variable_inr (res : point_source_images) :
  point_source_image lens_class band mag_zero_point delta_pix num_pix
    psf_kernels (Some variability) = inr res ->
  exists image_data grid time_days stamps,
    point_source_image_properties lens_class band mag_zero_point delta_pix
      num_pix = inr image_data /\
    point_source_grid image_data delta_pix num_pix = inr grid /\
    time_in_days (time variability) = inr time_days /\
    variability_model variability = "sinusoidal" /\
    res = StampsByEpoch stamps /\
    length stamps = length psf_kernels /\
    (forall i row, stamps !! i = Some row ->
                   length row = length (value time_days)) /\
    forall i j row stamp,
      stamps !! i = Some row ->
      row !! j = Some stamp ->
      exists kernel mag ra dec t t_ij,
        psf_kernels !! i = Some kernel /\
        mags !! i = Some mag /\
        ra_image image_data !! i = Some ra /\
        dec_image image_data !! i = Some dec /\
        value time_days !! j = Some t /\
        image_observer_times lens_class t !! i = Some t_ij /\
        stamp = render_stamp grid (psf_of kernel) ra dec
                  (counts (mag + fn t_ij) mag_zero_point).
Proof.
  unfold point_source_image. intros Hrun.
  apply bind_inr in Hrun as (image_data & Htbl & Hrun).
  apply bind_inr in Hrun as (grid & Hgrid & Hrun).
  apply bind_inr in Hrun as (psf_class & Hpsf & Hrun).
  apply bind_inr in Hrun as (time_days & Htime & Hrun).
  destruct (String.eqb (variability_model variability) "sinusoidal")
    eqn:Hmodel; [| discriminate].
  apply String.eqb_eq in Hmodel.
  cbn [bind ret] in Hrun. cbv zeta in Hrun.
  apply bind_inr in Hrun as (transposed & HT & Hrun).
  apply bind_inr in Hrun as (mag_rows & Hmags & Hrun).
  apply bind_inr in Hrun as (amp_rows & Hamps & Hrun).
  apply bind_inr in Hrun as (stamps & Hloop & Hrun).
  injection Hrun as <-.
  exists image_data, grid, time_days, stamps.
  repeat (split; [assumption || reflexivity |]).
  (* the shapes of the two intermediate arrays *)
  apply for_in_range_inr in Hmags as [Hmags_len Hmags].
  assert (Hmags_row : Forall (fun r => length r = length (value time_days))
                        mag_rows).
  { apply Forall_lookup. intros i r Hr. apply Hmags in Hr.
    now apply for_in_range_inr in Hr as [Hlen _]. }
  rewrite (reshape_concat _ _ _ Hmags_len Hmags_row) in Hamps.
  apply for_in_range_inr in Hamps as [Hamps_len Hamps].
  assert (Hamps_row : Forall (fun r => length r = length (value time_days))
                        amp_rows).
  { apply Forall_lookup. intros i r Hr. apply Hamps in Hr.
    now apply for_in_range_inr in Hr as [Hlen _]. }
  rewrite (reshape_concat _ _ _ Hamps_len Hamps_row) in Hloop.
  apply for_in_range_inr in Hloop as [Hlen Hbody].
  assert (Hpsf_len : length psf_class = length psf_kernels).
  { rewrite psf_class_eq in Hpsf. injection Hpsf as <-.
    apply length_map. }
  split; [congruence |].
  split.
  { intros i row Hrow. apply Hbody in Hrow.
    now apply for_in_range_inr in Hrow as [Hrow_len _]. }
  intros i j row stamp Hrow Hstamp.
  (* the stamp *)
  apply Hbody in Hrow. apply for_in_range_inr in Hrow as [_ Hrow].
  apply Hrow in Hstamp.
  apply bind_inr in Hstamp as (psf_i & Hpsf_i & Hstamp).
  apply bind_inr in Hstamp as (ra & Hra & Hstamp).
  apply bind_inr in Hstamp as (dec & Hdec & Hstamp).
  apply bind_inr in Hstamp as (amps_i & Hamps_i & Hstamp).
  apply bind_inr in Hstamp as (amp_ij & Hamp_ij & Hstamp).
  injection Hstamp as <-.
  apply index_inr in Hpsf_i, Hra, Hdec, Hamps_i, Hamp_ij.
  destruct (psf_class_lookup _ _ _ Hpsf Hpsf_i) as (kernel & Hk & ->).
  (* its amplitude *)
  apply Hamps in Hamps_i. apply for_in_range_inr in Hamps_i as [_ Hamps_i].
  apply Hamps_i in Hamp_ij.
  apply bind_inr in Hamp_ij as (mags_i & Hmags_i & Hamp_ij).
  apply bind_inr in Hamp_ij as (mag_ij & Hmag_ij & Hamp_ij).
  injection Hamp_ij as <-.
  apply index_inr in Hmags_i, Hmag_ij.
  (* its magnitude *)
  apply Hmags in Hmags_i. apply for_in_range_inr in Hmags_i as [_ Hmags_i].
  apply Hmags_i in Hmag_ij.
  apply bind_inr in Hmag_ij as (mag & Hmag & Hmag_ij).
  apply bind_inr in Hmag_ij as (times_i & Htimes_i & Hmag_ij).
  apply bind_inr in Hmag_ij as (t_ij & Ht_ij & Hmag_ij).
  injection Hmag_ij as <-.
  apply index_inr in Hmag, Htimes_i, Ht_ij.
  (* its observer time *)
  destruct (np_transpose_inr _ _ HT i j times_i t_ij Htimes_i Ht_ij)
    as (obs & Hobs & Hcell).
  apply list_lookup_fmap_Some in Hobs as (t & -> & Ht).
  exists kernel, mag, ra, dec, t, t_ij.
  repeat split; assumption || reflexivity.
Qed.

End PointSourcesReturned.

Lemma map_const_range {A : Type} (x : A) (k : nat) :
  map (fun _ => x) (range k) = replicate k x.
Proof.
  unfold range. generalize 0.
  induction k as [| k IH]; intros start; [reflexivity |].
  cbn [seq map replicate]. now rewrite IH.
Qed.

Section PointSourceClaims.

Context {lenstronomy : Lenstronomy} {variability_models : VariabilityModels}
        {constructors : Constructors}.

Variables (lens_class : LensClass) (band : string).
Variables (mag_zero_point delta_pix : R) (num_pix : nat).
Variable psf_kernels : list image.
Variable variability : VariabilitySpec.

Local Abbreviation mags := (point_source_magnitude lens_class band true).
Local Abbreviation fn :=
  (sinusoidal_variability (kwargs_variability variability)).
Local Abbreviation psf_of kernel :=
  {| psf_type := "PIXEL"; kernel_point_source := kernel |}.



(** C7. Let the variability function be zero at every time. Whenever the
    variability path and the non-variability path both return, every
    stamp of the variability path, for image [i] at any epoch, is the
    stamp of the non-variability path for image [i], and the amplitude it
    was rendered at is entry [i] of the amplitude column of
    [point_source_image_properties]. If moreover there is no time delay
    (every image is observed at the source time), the model is the
    sinusoidal one, the property table is built, the times convert to days
    and there is one PSF kernel per image, both paths do return, and the
    variability result is the non-variability result with each stamp
    repeated once per epoch. *)
Theorem zero_variability_is_static :
  (forall t, fn t = 0%R) ->
  (forall stamps_var stamps_static,
     point_source_image lens_class band mag_zero_point delta_pix num_pix
       psf_kernels (Some variability) = inr (StampsByEpoch stamps_var) ->
     point_source_image lens_class band mag_zero_point delta_pix num_pix
       psf_kernels None = inr (Stamps stamps_static) ->
     forall i j row stamp,
       stamps_var !! i = Some row ->
       row !! j = Some stamp ->
       stamps_static !! i = Some stamp /\
       exists image_data grid kernel mag ra dec t_ij,
         point_source_image_properties lens_class band mag_zero_point
           delta_pix num_pix = inr image_data /\
         image_amplitude image_data !! i
         = Some (counts (mag + fn t_ij) mag_zero_point) /\
         stamp = render_stamp grid (psf_of kernel) ra dec
                   (counts (mag + fn t_ij) mag_zero_point)) /\
  (forall image_data time_days,
     point_source_image_properties lens_class band mag_zero_point delta_pix
       num_pix = inr image_data ->
     variability_model variability = "sinusoidal" ->
     time_in_days (time variability) = inr time_days ->
     (forall t,
        image_observer_times lens_class t = replicate (length mags) t) ->
     length psf_kernels = length mags ->
     exists stamps,
       point_source_image lens_class band mag_zero_point delta_pix num_pix
         psf_kernels None = inr (Stamps stamps) /\
       point_source_image lens_class band mag_zero_point delta_pix num_pix
         psf_kernels (Some variability)
       = inr (StampsByEpoch
                (map (fun stamp => replicate (length (value time_days)) stamp)
                     stamps)) /\
       length stamps = length mags /\
       forall (i j : nat) (mag t t_ij : R),
         mags !! i = Some mag ->
         value time_days !! j = Some t ->
         image_observer_times lens_class t !! i = Some t_ij ->
         t_ij = t /\
         image_amplitude image_data !! i
         = Some (counts (mag + fn t_ij) mag_zero_point)).
Proof.
  intros Hzero. split.
  { intros stamps_var stamps_static Hvar Hstatic i j row stamp Hrow Hstamp.
    destruct (point_source_image_variable_inr _ _ _ _ _ _ _ _ Hvar)
      as (image_data & grid & time_days & stamps & Htbl & Hgrid & _ & _
          & Hres & _ & _ & Hstamps).
    injection Hres as <-.
    destruct (Hstamps i j row stamp Hrow Hstamp)
      as (kernel & mag & ra & dec & t & t_ij & Hk & Hmag & Hra & Hdec & _ & _
          & ->).
    destruct (point_source_image_static_inr _ _ _ _ _ _ _ Hstatic)
      as (image_data' & grid' & stamps' & Htbl' & Hgrid' & Hres' & Hlen'
          & Hstamps').
    injection Hres' as <-.
    rewrite Htbl in Htbl'. injection Htbl' as <-.
    rewrite Hgrid in Hgrid'. injection Hgrid' as <-.
    destruct (lookup_lt_is_Some_2 stamps_static i) as [stamp' Hstamp'].
    { rewrite Hlen'. now apply lookup_lt_Some in Hk. }
    destruct (Hstamps' i stamp' Hstamp')
      as (kernel' & mag' & ra' & dec' & Hk' & Hmag' & Hra' & Hdec' & Hamp'
          & ->).
    rewrite Hk in Hk'. injection Hk' as <-.
    rewrite Hmag in Hmag'. injection Hmag' as <-.
    rewrite Hra in Hra'. injection Hra' as <-.
    rewrite Hdec in Hdec'. injection Hdec' as <-.
    rewrite Hzero, counts_plus_0. split; [exact Hstamp' |].
    exists image_data, grid, kernel, mag, ra, dec, t_ij.
    rewrite Hzero, counts_plus_0. now repeat split. }
  intros image_data time_days Htbl Hmodel Htime Hdelay Hlen.
  destruct (point_source_image_properties_inr _ _ _ _ _ _ Htbl)
    as (_ & _ & _ & _ & Hamps & _).
  eexists. split; [| split; [| split]].
  - apply (point_source_image_static _ _ _ _ _ _ _ Htbl). lia.
  - rewrite (point_source_image_variable _ _ _ _ _ _ _ Htbl _ _ Htime);
      [| | exact Hmodel | lia].
    + do 2 f_equal. rewrite map_map. apply map_ext. intros i.
      rewrite <- map_const_range. apply map_ext. intros j.
      now rewrite Hzero, counts_plus_0.
    + intros t _. now rewrite Hdelay, length_replicate.
  - unfold range. now rewrite length_map, length_seq.
  - intros i j mag t t_ij Hmag Ht Htij.
    rewrite Hdelay in Htij. apply lookup_replicate in Htij as [-> _].
    split; [reflexivity |].
    rewrite Hamps, list_lookup_fmap, Hmag, Hzero, counts_plus_0.
    reflexivity.
Qed.

End PointSourceClaims.

(** ** The sample systems *)

Lemma double_lens_properties (band : string) (delta_pix : R) (num_pix : nat) :
  point_source_image_properties (lenstronomy := Sample.toy_lenstronomy)
    Sample.double_lens band 27 delta_pix num_pix
  = inr Sample.double_lens_table.
Proof.
  rewrite point_source_image_properties_eq.
  apply (Table_init_ok Sample.double_lens_table 2).
  repeat constructor.
Qed.

Lemma double_lens_no_delay_properties (band : string) (delta_pix : R)
    (num_pix : nat) :
  point_source_image_properties (lenstronomy := Sample.toy_lenstronomy)
    Sample.double_lens_no_delay band 27 delta_pix num_pix
  = inr Sample.double_lens_table.
Proof.
  rewrite point_source_image_properties_eq.
  apply (Table_init_ok Sample.double_lens_table 2).
  repeat constructor.
Qed.

Lemma epochs_days_in_days :
  time_in_days Sample.epochs_days = inr Sample.epochs_days.
Proof. reflexivity. Qed.

(** A quadruply imaged source has per-image columns of length four, and
    no table. *)
Example quad_lens_properties :
  point_source_image_properties (lenstronomy := Sample.toy_lenstronomy)
    Sample.quad_lens "i" 27 0.2 5
  = inl InconsistentColumnLengths.
Proof.
  rewrite point_source_image_properties_eq.
  apply Table_init_err with (a := 2) (b := 4); [| | discriminate].
  - apply list_elem_of_here.
  - apply list_elem_of_further, list_elem_of_here.
Qed.

(** With the quadruply imaged source the exception of the table comes
    first, whatever the model name. *)
Example quad_lens_linear :
  point_source_image (lenstronomy := Sample.toy_lenstronomy)
    (variability_models := Sample.toy_variability) Sample.quad_lens "i" 27 0.2 5
    [Sample.kernel; Sample.kernel; Sample.kernel; Sample.kernel]
    (Some Sample.linear_spec)
  = inl InconsistentColumnLengths.
Proof.
  unfold point_source_image. now rewrite quad_lens_properties.
Qed.

(** C4 as stated fails: a time of 86400 seconds is not left as it is, it
    becomes one day. *)
Lemma seconds_are_converted :
  unit_of Sample.one_day_in_seconds <> u_day /\
  unit_of Sample.one_day_in_seconds <> u_minute /\
  time_in_days Sample.one_day_in_seconds
  = inr {| value := [(86400 * (1 / 86400))%R]; unit_of := u_day |} /\
  (86400 * (1 / 86400) = 1)%R /\
  time_in_days Sample.one_day_in_seconds <> inr Sample.one_day_in_seconds.
Proof.
  split; [discriminate |]. split; [discriminate |].
  split; [reflexivity |]. split; [lra |].
  discriminate.
Qed.

(** C5 as stated fails: the table of a doubly imaged source has two rows,
    not one. *)
Lemma double_lens_table_has_two_rows :
  point_source_image_properties (lenstronomy := Sample.toy_lenstronomy)
    Sample.double_lens "i" 27 0.2 5
  = inr Sample.double_lens_table /\
  nrows Sample.double_lens_table = 2 /\
  nrows Sample.double_lens_table <> 1.
Proof.
  split; [apply double_lens_properties |].
  split; [reflexivity | discriminate].
Qed.

(** C5, amended, on the doubly imaged source. *)
Lemma properties_table_columns_witness :
  image_amplitude Sample.double_lens_table
  = map (fun mag => counts mag 27) [21%R; 22%R] /\
  nrows Sample.double_lens_table = 2.
Proof.
  destruct (properties_table_columns (lenstronomy := Sample.toy_lenstronomy)
              Sample.double_lens "i" 27 0.2 5 Sample.double_lens_table
              (double_lens_properties "i" 0.2 5))
    as (_ & _ & _ & _ & Hamp & _ & _ & Hrows & _).
  split; [exact Hamp | exact Hrows].
Defined.

(** C6, on a doubly and on a quadruply imaged source. *)
Lemma properties_only_for_two_images_witness :
  (exists t,
     point_source_image_properties (lenstronomy := Sample.toy_lenstronomy)
       Sample.double_lens "i" 27 0.2 5 = inr t /\ nrows t = 2) /\
  point_source_image_properties (lenstronomy := Sample.toy_lenstronomy)
    Sample.quad_lens "i" 27 0.2 5 = inl InconsistentColumnLengths.
Proof.
  split.
  - destruct (properties_only_for_two_images (lenstronomy := Sample.toy_lenstronomy)
                Sample.double_lens "i" 27 0.2 5 2 eq_refl eq_refl eq_refl)
      as (_ & Htwo & _).
    exact (Htwo eq_refl).
  - destruct (properties_only_for_two_images (lenstronomy := Sample.toy_lenstronomy)
                Sample.quad_lens "i" 27 0.2 5 4 eq_refl eq_refl eq_refl)
      as (_ & _ & Hother).
    apply Hother. discriminate.
Defined.

Lemma flat_spec_is_zero (t : R) :
  sinusoidal_variability (VariabilityModels := Sample.toy_variability)
    (kwargs_variability Sample.flat_spec) t = 0%R.
Proof.
  cbn [sinusoidal_variability Sample.toy_variability kwargs_variability
       Sample.flat_spec].
  rewrite lookup_insert_eq. apply Rmult_0_l.
Qed.




(** C7, on the doubly imaged source without time delay and a sinusoid of
    amplitude zero. *)
Lemma zero_variability_is_static_witness :
  exists stamps,
    point_source_image (lenstronomy := Sample.toy_lenstronomy)
      (variability_models := Sample.toy_variability)
      Sample.double_lens_no_delay "i" 27 0.2 5 [Sample.kernel; Sample.kernel]
      None = inr (Stamps stamps) /\
    point_source_image (lenstronomy := Sample.toy_lenstronomy)
      (variability_models := Sample.toy_variability)
      Sample.double_lens_no_delay "i" 27 0.2 5 [Sample.kernel; Sample.kernel]
      (Some Sample.flat_spec)
    = inr (StampsByEpoch (map (fun stamp => replicate 2 stamp) stamps)) /\
    length stamps = 2.
Proof.
  destruct (zero_variability_is_static
              (lenstronomy := Sample.toy_lenstronomy)
              (variability_models := Sample.toy_variability)
              Sample.double_lens_no_delay "i" 27 0.2 5
              [Sample.kernel; Sample.kernel] Sample.flat_spec
              flat_spec_is_zero) as [_ Hreturns].
  destruct (Hreturns Sample.double_lens_table Sample.epochs_days
              (double_lens_no_delay_properties "i" 0.2 5) eq_refl
              epochs_days_in_days (fun t => eq_refl) eq_refl)
    as (stamps & Hstatic & Hvar & Hlen & _).
  exists stamps. split; [exact Hstatic |]. split; [exact Hvar | exact Hlen].
Defined.

(** * Further properties *)

(** ** Loops and arrays, continued *)

(** The two tests of the unit normalisation amount to one. *)
Lemma time_in_days_cases (q : Quantity) :
  time_in_days q =
    match unit_of q with
    | u_day => inr q
    | _ => to_day q
    end.
Proof.
  unfold time_in_days.
  destruct (unit_of q); cbn [Unit_eqb bind ret]; try reflexivity;
    now destruct (to_day q).
Qed.

(** The first exception of the body is the exception of the loop. *)
Lemma for_in_raise {A B : Type} (xs1 xs2 : list A) (x : A)
    (body : A -> result B) (e : exn) :
  (forall y, y ∈ xs1 -> exists b, body y = inr b) ->
  body x = inl e ->
  for_in (xs1 ++ x :: xs2) body = inl e.
Proof.
  intros Hpre Hx. induction xs1 as [| y ys IH]; cbn [for_in app].
  - now rewrite Hx.
  - destruct (Hpre y) as [b Hb]; [constructor |].
    rewrite Hb. cbn [bind]. rewrite IH; [reflexivity |].
    intros z Hz. apply Hpre. now constructor.
Qed.

Lemma for_in_range_raise {B : Type} (n i : nat) (body : nat -> result B)
    (e : exn) :
  i < n ->
  (forall i', i' < i -> exists b, body i' = inr b) ->
  body i = inl e ->
  for_in (range n) body = inl e.
Proof.
  intros Hi Hpre Hbody. unfold range.
  replace n with (i + S (n - S i)) by lia.
  rewrite seq_app. cbn [seq Nat.add].
  apply for_in_raise; [| exact Hbody].
  intros i' Hi'. apply elem_of_seq in Hi'. apply Hpre. lia.
Qed.

(** The transpose of rows of one length, in closed form. *)
Lemma np_transpose_uniform (rows : list (list R)) (m : nat) :
  rows <> [] ->
  Forall (fun r => length r = m) rows ->
  np_transpose rows
  = inr (map (fun i => map (fun r => nth i r 0%R) rows) (range m)).
Proof.
  intros Hne Hall. unfold np_transpose.
  destruct rows as [| r0 rest] eqn:Hrows; [congruence |].
  rewrite <- Hrows in *. clear Hne.
  assert (Hr0 : length r0 = m).
  { rewrite Forall_forall in Hall. apply Hall. rewrite Hrows. constructor. }
  rewrite Hr0.
  replace (forallb _ rows) with true; [reflexivity |].
  symmetry. apply forallb_forall. intros r Hr.
  apply Nat.eqb_eq. rewrite Forall_forall in Hall.
  apply Hall. now apply list_elem_of_In.
Qed.

(** Rows of two lengths have no transpose. *)
Lemma np_transpose_ragged (rows : list (list R)) (r1 r2 : list R) :
  r1 ∈ rows -> r2 ∈ rows -> length r1 <> length r2 ->
  np_transpose rows = inl InhomogeneousShape.
Proof.
  intros H1 H2 Hne. unfold np_transpose.
  destruct rows as [| r0 rest] eqn:Hrows; [inversion H1 |].
  rewrite <- Hrows in *.
  destruct (forallb _ rows) eqn:Hall; [| reflexivity].
  exfalso. rewrite forallb_forall in Hall.
  apply list_elem_of_In in H1, H2.
  apply Hall, Nat.eqb_eq in H1. apply Hall, Nat.eqb_eq in H2. congruence.
Qed.

(** A loop whose body returns on every element returns, with one result
    per element. *)
Lemma for_in_returns {A B : Type} (xs : list A) (body : A -> result B)
    (P : B -> Prop) :
  (forall x, x ∈ xs -> exists b, body x = inr b /\ P b) ->
  exists bs,
    for_in xs body = inr bs /\ length bs = length xs /\ Forall P bs.
Proof.
  induction xs as [| x xs IH]; intros Hbody.
  - exists []. repeat split. constructor.
  - destruct (Hbody x) as (b & Hb & HP); [constructor |].
    destruct IH as (bs & Hbs & Hlen & Hall).
    { intros y Hy. apply Hbody. now constructor. }
    exists (b :: bs). cbn [for_in]. rewrite Hb. cbn [bind]. rewrite Hbs.
    cbn [bind ret length]. repeat split; [congruence |].
    now constructor.
Qed.

Lemma index_ge_raise {A : Type} (l : list A) (i : nat) :
  length l <= i -> index l i = inl IndexError.
Proof.
  intros Hi. unfold index. now rewrite (lookup_ge_None_2 l i Hi).
Qed.

(** ** Further properties of the renderers *)

Section Composites.

Context {lenstronomy : Lenstronomy} {visualization : Visualization}.

Variables (lens_class : LensClass).
Variables (mag_zero_point delta_pix : R) (num_pix : nat).

(** X1. For a band list of any length, [sharp_rgb_image] is
    [rgb_image_from_image_list] of the sharp images of the bands with
    stretch 0.5, exceptions included. *)
Theorem sharp_rgb_image_any_bands (rgb_band_list : list string) :
  sharp_rgb_image lens_class rgb_band_list mag_zero_point delta_pix num_pix
  = rgb_image_from_image_list
      (map (fun band =>
              sharp_image lens_class band mag_zero_point delta_pix num_pix
                true)
           rgb_band_list)
      0.5.
Proof.
  destruct rgb_band_list as [| band_r [| band_g [| band_b rest]]];
    reflexivity.
Qed.

(** X2. The two composite builders raise [IndexError] exactly on a list
    of fewer than three entries, and on a longer list they use the first
    three entries and ignore the others. *)
Theorem rgb_composites_use_three_entries (image_list : list image)
    (rgb_band_list : list string) (stretch : R) :
  (rgb_image_from_image_list image_list stretch = inl IndexError
   <-> length image_list < 3) /\
  (sharp_rgb_image lens_class rgb_band_list mag_zero_point delta_pix num_pix
   = inl IndexError <-> length rgb_band_list < 3) /\
  rgb_image_from_image_list image_list stretch
  = rgb_image_from_image_list (take 3 image_list) stretch /\
  sharp_rgb_image lens_class rgb_band_list mag_zero_point delta_pix num_pix
  = sharp_rgb_image lens_class (take 3 rgb_band_list) mag_zero_point
      delta_pix num_pix.
Proof.
  split; [| split; [| split]].
  - destruct image_list as [| r [| g [| b rest]]]; cbn;
      (split; [intros; try discriminate; lia | intros; try reflexivity; lia]).
  - destruct rgb_band_list as [| r [| g [| b rest]]]; cbn;
      (split; [intros; try discriminate; lia | intros; try reflexivity; lia]).
  - now destruct image_list as [| r [| g [| b rest]]].
  - now destruct rgb_band_list as [| r [| g [| b rest]]].
Qed.

End Composites.

(** ** Further properties of the point-source functions *)

Section TableShape.

Context {lenstronomy : Lenstronomy} {variability_models : VariabilityModels}.

Variables (lens_class : LensClass) (band : string).
Variables (mag_zero_point delta_pix : R) (num_pix : nat).

Local Abbreviation mags := (point_source_magnitude lens_class band true).
Local Abbreviation ras := (fst (image_positions lens_class)).
Local Abbreviation decs := (snd (image_positions lens_class)).

(** The table is built exactly for two right ascensions, two
    declinations and two magnitudes. *)
Lemma properties_two_or_raise :
  (length ras = 2 /\ length decs = 2 /\ length mags = 2 ->
   exists t,
     point_source_image_properties lens_class band mag_zero_point delta_pix
       num_pix = inr t /\ nrows t = 2) /\
  (~ (length ras = 2 /\ length decs = 2 /\ length mags = 2) ->
   point_source_image_properties lens_class band mag_zero_point delta_pix
     num_pix = inl InconsistentColumnLengths).
Proof.
  rewrite point_source_image_properties_eq. split.
  - intros (Hra & Hdec & Hmag). eexists. split.
    + apply Table_init_ok with (n := 2). unfold column_lengths.
      cbn [deflector_pix image_pix ra_image dec_image image_amplitude
           image_magnitude radec_at_xy_0 length].
      rewrite !length_map, length_zip, Hra, Hdec, Hmag.
      repeat constructor.
    + reflexivity.
  - intros Hnot.
    assert (Hone : length ras <> 2 \/ length decs <> 2 \/ length mags <> 2)
      by lia.
    destruct Hone as [Hra | [Hdec | Hmag]].
    + apply Table_init_err with (a := 2) (b := length ras);
        [apply list_elem_of_here | | congruence].
      do 2 apply list_elem_of_further. apply list_elem_of_here.
    + apply Table_init_err with (a := 2) (b := length decs);
        [apply list_elem_of_here | | congruence].
      do 3 apply list_elem_of_further. apply list_elem_of_here.
    + apply Table_init_err with (a := 2) (b := length mags);
        [apply list_elem_of_here | | congruence].
      do 5 apply list_elem_of_further. apply list_elem_of_here.
Qed.

(** X3. Whatever the lens descriptor reports,
    [point_source_image_properties] returns a table exactly when there are
    two right ascensions, two declinations and two magnitudes; in every
    other case, lists of unequal lengths included, it raises the
    inconsistent-lengths error of the table. *)
Theorem properties_returns_iff :
  ((exists t,
      point_source_image_properties lens_class band mag_zero_point delta_pix
        num_pix = inr t)
   <-> length ras = 2 /\ length decs = 2 /\ length mags = 2) /\
  (point_source_image_properties lens_class band mag_zero_point delta_pix
     num_pix = inl InconsistentColumnLengths
   <-> ~ (length ras = 2 /\ length decs = 2 /\ length mags = 2)).
Proof.
  destruct properties_two_or_raise as [Htwo Hother].
  destruct (decide (length ras = 2 /\ length decs = 2 /\ length mags = 2))
    as [Hyes | Hno].
  - destruct (Htwo Hyes) as (t & Ht & _). split; split; try tauto.
    + intros _. now exists t.
    + rewrite Ht. discriminate.
  - pose proof (Hother Hno) as Herr. split; split; try tauto.
    intros [t Ht]. rewrite Herr in Ht. discriminate.
Qed.

(** X4. For a lens that does not have exactly two images
    [point_source_image] raises the inconsistent-lengths error of the
    table, whatever the PSF kernels and with or without variability. *)
Theorem point_source_image_needs_two_images (psf_kernels : list image)
    (variability : option VariabilitySpec) :
  ~ (length ras = 2 /\ length decs = 2 /\ length mags = 2) ->
  point_source_image lens_class band mag_zero_point delta_pix num_pix
    psf_kernels variability = inl InconsistentColumnLengths.
Proof.
  intros Hnot. destruct properties_two_or_raise as [_ Hother].
  unfold point_source_image. now rewrite (Hother Hnot).
Qed.

End TableShape.

(** X5. The unit normalisation raises exactly for a unit that is not a
    time, with the unit-conversion error. What it returns is in days, has
    as many epochs as it was given, and is left unchanged by a second
    normalisation. *)
Theorem time_in_days_normal (q : Quantity) :
  (time_in_days q = inl UnitConversionError <-> in_days (unit_of q) = None) /\
  forall q',
    time_in_days q = inr q' ->
    unit_of q' = u_day /\
    length (value q') = length (value q) /\
    time_in_days q' = inr q'.
Proof.
  rewrite time_in_days_cases.
  destruct q as [ts u]. cbn [unit_of value]. unfold to_day.
  cbn [unit_of value].
  destruct u; cbn [in_days ret raise]; (split; [split; intros; discriminate || reflexivity |]);
    intros q' Hq; try discriminate; injection Hq as <-;
    cbn [unit_of value]; rewrite ?length_map;
    repeat split; reflexivity.
Qed.

Section Epochs.

Context {lenstronomy : Lenstronomy} {variability_models : VariabilityModels}.

Variables (lens_class : LensClass) (band : string).
Variables (mag_zero_point delta_pix : R) (num_pix : nat).
Variable psf_kernels : list image.

Local Abbreviation sim_api :=
  (band_sim_api lens_class band mag_zero_point delta_pix num_pix).
Local Abbreviation mags := (point_source_magnitude lens_class band true).
Local Abbreviation the_grid :=
  {| nx := num_pix; ny := num_pix;
     transform_pix2angle := [[delta_pix; 0%R]; [0%R; delta_pix]];
     ra_at_xy_0 := fst (map_pix2coord sim_api 0 0);
     dec_at_xy_0 := snd (map_pix2coord sim_api 0 0) |}.
Local Abbreviation psf_of kernel :=
  {| psf_type := "PIXEL"; kernel_point_source := kernel |}.

Variable image_data : Table.
Hypothesis Himage_data :
  point_source_image_properties lens_class band mag_zero_point delta_pix
    num_pix = inr image_data.

Variable variability : VariabilitySpec.
Variable time_days : Quantity.
Hypothesis Htime : time_in_days (time variability) = inr time_days.
Hypothesis Hmodel : variability_model variability = "sinusoidal".

Local Abbreviation epochs := (value time_days).
Local Abbreviation fn :=
  (sinusoidal_variability (kwargs_variability variability)).
Local Abbreviation observer_time i j :=
  (nth i (image_observer_times lens_class (nth j epochs 0%R)) 0%R).
Local Abbreviation variable_amp :=
  (map (fun i =>
          map (fun j => counts (nth i mags 0%R + fn (observer_time i j))%R
                          mag_zero_point)
              (range (length epochs)))
       (range (length mags))).

(** The last loop of the variability path, over the kernels and the
    epochs. *)
Local Abbreviation stamp_loop :=
  (for_in (range (length psf_kernels)) (fun i =>
     for_in (range (length epochs)) (fun j =>
       let! psf_i := index (map (fun kernel => psf_of kernel) psf_kernels) i in
       let! ra_i := index (ra_image image_data) i in
       let! dec_i := index (dec_image image_data) i in
       let! amps_i := index variable_amp i in
       let! amp_ij := index amps_i j in
       ret (render_stamp the_grid psf_i ra_i dec_i amp_ij)))).

(** With at least as many observer times per epoch as images, the
    variability path reaches its last loop with the array of the
    amplitudes in closed form. *)
Lemma point_source_image_variable_loop (m : nat) :
  (forall t, t ∈ epochs ->
             length (image_observer_times lens_class t) = m) ->
  length mags <= m ->
  point_source_image lens_class band mag_zero_point delta_pix num_pix
    psf_kernels (Some variability)
  = let! stamps := stamp_loop in ret (StampsByEpoch stamps).
Proof.
  intros Hrect Hm.
  destruct (np_transpose_rect
              (fun t_obs => image_observer_times lens_class t_obs) epochs
              m 0%R Hrect) as (T & HT & Hlook).
  cbv beta in Hlook.
  unfold point_source_image. rewrite Himage_data. cbn [bind].
  rewrite (point_source_grid_eq _ _ _ _ _ _ Himage_data). cbn [bind].
  rewrite psf_class_eq. cbn [bind]. rewrite Htime. cbn [bind].
  rewrite Hmodel, String.eqb_refl. cbn [bind ret]. cbv zeta.
  rewrite HT. cbn [bind].
  rewrite for_in_map with
    (g := fun i => map (fun j => (nth i mags 0%R + fn (observer_time i j))%R)
                       (range (length epochs))).
  2:{ intros i Hi. apply elem_of_seq in Hi.
      apply for_in_map. intros j Hj. apply elem_of_seq in Hj.
      rewrite index_nth with (d := 0%R) by lia. cbn [bind].
      destruct (Hlook i j) as (row & Hrow & Hcell); [lia | lia |].
      rewrite (index_lookup _ _ _ Hrow). cbn [bind].
      rewrite (index_lookup _ _ _ Hcell). reflexivity. }
  cbn [bind].
  rewrite reshape_concat;
    [| unfold range; now rewrite length_map, length_seq
     | apply rows_of_length].
  rewrite for_in_map with
    (g := fun i => map (fun j => counts (nth i mags 0%R + fn (observer_time i j))%R
                                   mag_zero_point)
                       (range (length epochs))).
  2:{ intros i Hi. apply elem_of_seq in Hi.
      apply for_in_map. intros j Hj. apply elem_of_seq in Hj.
      rewrite index_map_range by lia. cbn [bind].
      rewrite index_map_range by lia. reflexivity. }
  cbn [bind].
  rewrite reshape_concat;
    [| unfold range; now rewrite length_map, length_seq
     | apply rows_of_length].
  rewrite length_map. reflexivity.
Qed.

(** The body of the last loop returns for a kernel that has an image. *)
Lemma stamp_loop_body (i : nat) :
  i < length psf_kernels -> i < length mags ->
  exists row,
    for_in (range (length epochs)) (fun j =>
      let! psf_i := index (map (fun kernel => psf_of kernel) psf_kernels) i in
      let! ra_i := index (ra_image image_data) i in
      let! dec_i := index (dec_image image_data) i in
      let! amps_i := index variable_amp i in
      let! amp_ij := index amps_i j in
      ret (render_stamp the_grid psf_i ra_i dec_i amp_ij)) = inr row /\
    length row = length epochs.
Proof.
  intros Hpsf Hi.
  destruct (image_data_lengths _ _ _ _ _ _ Himage_data) as (Hra & Hdec & _).
  eexists. split.
  - apply for_in_map with
      (g := fun j =>
              render_stamp the_grid
                (nth i (map (fun kernel => psf_of kernel) psf_kernels)
                   (psf_of []))
                (nth i (ra_image image_data) 0%R)
                (nth i (dec_image image_data) 0%R)
                (counts (nth i mags 0%R + fn (observer_time i j))%R
                   mag_zero_point)).
    intros j Hj. apply elem_of_seq in Hj.
    rewrite index_nth with (d := psf_of []) by (rewrite length_map; lia).
    rewrite index_nth with (d := 0%R) by lia.
    rewrite index_nth with (d := 0%R) by lia.
    cbn [bind]. rewrite index_map_range by lia. cbn [bind].
    rewrite index_map_range by lia. reflexivity.
  - unfold range. now rewrite length_map, length_seq.
Qed.

Lemma stamp_loop_returns :
  length psf_kernels <= length mags \/ epochs = [] ->
  exists stamps,
    stamp_loop = inr stamps /\
    length stamps = length psf_kernels /\
    Forall (fun row => length row = length epochs) stamps.
Proof.
  intros Hcase.
  destruct (for_in_returns (range (length psf_kernels))
              (fun i =>
                 for_in (range (length epochs)) (fun j =>
                   let! psf_i :=
                     index (map (fun kernel => psf_of kernel) psf_kernels) i in
                   let! ra_i := index (ra_image image_data) i in
                   let! dec_i := index (dec_image image_data) i in
                   let! amps_i := index variable_amp i in
                   let! amp_ij := index amps_i j in
                   ret (render_stamp the_grid psf_i ra_i dec_i amp_ij)))
              (fun row => length row = length epochs))
    as (stamps & Hloop & Hlen & Hrows).
  { intros i Hi. apply elem_of_seq in Hi. destruct Hcase as [Hle | Hnone].
    - apply stamp_loop_body; lia.
    - rewrite Hnone. exists []. now split. }
  exists stamps. split; [exact Hloop |]. split; [| exact Hrows].
  unfold range in Hlen. now rewrite length_seq in Hlen.
Qed.

(** With a kernel too many and an epoch to render, the last loop indexes
    the image columns out of range. *)
Lemma stamp_loop_raises :
  length mags < length psf_kernels -> epochs <> [] ->
  stamp_loop = inl IndexError.
Proof.
  intros Hlt Hne.
  destruct (image_data_lengths _ _ _ _ _ _ Himage_data) as (Hra & _ & _).
  apply for_in_range_raise with (i := length mags); [exact Hlt | |].
  - intros i Hi. destruct (stamp_loop_body i) as (row & Hrow & _);
      [lia | lia |]. now exists row.
  - apply for_in_range_raise with (i := 0).
    + destruct epochs; [congruence | cbn [length]; lia].
    + intros i' Hi'. lia.
    + rewrite index_nth with (d := psf_of [])
        by (rewrite length_map; lia).
      cbn [bind]. rewrite index_ge_raise by lia. reflexivity.
Qed.

End Epochs.

Section KernelsAndEpochs.

Context {lenstronomy : Lenstronomy} {variability_models : VariabilityModels}.

Variables (lens_class : LensClass) (band : string).
Variables (mag_zero_point delta_pix : R) (num_pix : nat).
Variable psf_kernels : list image.

Local Abbreviation mags := (point_source_magnitude lens_class band true).
Local Abbreviation psf_of kernel :=
  {| psf_type := "PIXEL"; kernel_point_source := kernel |}.

(** X7. Once the property table is built, the non-variability path
    returns one stamp per PSF kernel when there are at most as many
    kernels as images (images without a kernel are left out without a
    word), and raises [IndexError] when there are more kernels than
    images. *)
Theorem static_kernel_count (image_data : Table) :
  point_source_image_properties lens_class band mag_zero_point delta_pix
    num_pix = inr image_data ->
  (length psf_kernels <= length mags ->
   exists stamps,
     point_source_image lens_class band mag_zero_point delta_pix num_pix
       psf_kernels None = inr (Stamps stamps) /\
     length stamps = length psf_kernels) /\
  (length mags < length psf_kernels ->
   point_source_image lens_class band mag_zero_point delta_pix num_pix
     psf_kernels None = inl IndexError).
Proof.
  intros Htbl.
  destruct (image_data_lengths _ _ _ _ _ _ Htbl) as (Hra & Hdec & Hamp).
  split.
  - intros Hle. eexists. split.
    + apply (point_source_image_static _ _ _ _ _ _ _ Htbl Hle).
    + unfold range. now rewrite length_map, length_seq.
  - intros Hlt. unfold point_source_image. rewrite Htbl. cbn [bind].
    rewrite (point_source_grid_eq _ _ _ _ _ _ Htbl). cbn [bind].
    rewrite psf_class_eq. cbn [bind]. rewrite length_map.
    rewrite for_in_range_raise with (i := length mags) (e := IndexError);
      [reflexivity | exact Hlt | |].
    + intros i Hi.
      rewrite index_nth with (d := psf_of []) by (rewrite length_map; lia).
      rewrite index_nth with (d := 0%R) by lia.
      rewrite index_nth with (d := 0%R) by lia.
      rewrite index_nth with (d := 0%R) by lia.
      cbn [bind ret]. eauto.
    + rewrite index_nth with (d := psf_of []) by (rewrite length_map; lia).
      cbn [bind]. rewrite index_ge_raise by lia. reflexivity.
Qed.

Variable variability : VariabilitySpec.

Local Abbreviation fn :=
  (sinusoidal_variability (kwargs_variability variability)).

(** X8. With the sinusoidal model and an empty sequence of observation
    times, the variability path returns one empty list of stamps per PSF
    kernel, whatever the number of kernels and whatever the lens
    descriptor reports as observer times. *)
Theorem no_epochs_no_stamps (image_data : Table) (time_days : Quantity) :
  point_source_image_properties lens_class band mag_zero_point delta_pix
    num_pix = inr image_data ->
  variability_model variability = "sinusoidal" ->
  time_in_days (time variability) = inr time_days ->
  value time_days = [] ->
  point_source_image lens_class band mag_zero_point delta_pix num_pix
    psf_kernels (Some variability)
  = inr (StampsByEpoch (replicate (length psf_kernels) [])).
Proof.
  intros Htbl Hmodel Htime Hnone.
  rewrite (point_source_image_variable_loop _ _ _ _ _ _ _ Htbl _ _ Htime
             Hmodel (length mags));
    [| rewrite Hnone; intros t Ht; inversion Ht | lia].
  rewrite Hnone. cbn [length range seq for_in].
  rewrite for_in_map with (g := fun _ => []); [| reflexivity].
  cbn [bind ret]. do 2 f_equal. apply map_const_range.
Qed.

(** X11. With the sinusoidal model, a built table, times in days and at
    least as many observer times per epoch as images: the variability
    path returns one list per PSF kernel, each with one stamp per epoch,
    when there are at most as many kernels as images; with more kernels
    than images and an epoch to render it raises [IndexError]. *)
Theorem variability_kernel_count (image_data : Table) (time_days : Quantity)
    (m : nat) :
  point_source_image_properties lens_class band mag_zero_point delta_pix
    num_pix = inr image_data ->
  variability_model variability = "sinusoidal" ->
  time_in_days (time variability) = inr time_days ->
  (forall t, t ∈ value time_days ->
             length (image_observer_times lens_class t) = m) ->
  length mags <= m ->
  (length psf_kernels <= length mags ->
   exists stamps,
     point_source_image lens_class band mag_zero_point delta_pix num_pix
       psf_kernels (Some variability) = inr (StampsByEpoch stamps) /\
     length stamps = length psf_kernels /\
     Forall (fun row => length row = length (value time_days)) stamps) /\
  (length mags < length psf_kernels -> value time_days <> [] ->
   point_source_image lens_class band mag_zero_point delta_pix num_pix
     psf_kernels (Some variability) = inl IndexError).
Proof.
  intros Htbl Hmodel Htime Hrect Hm.
  rewrite (point_source_image_variable_loop _ _ _ _ _ _ _ Htbl _ _ Htime
             Hmodel m Hrect Hm).
  split.
  - intros Hle.
    destruct (stamp_loop_returns lens_class band mag_zero_point delta_pix
                num_pix psf_kernels image_data Htbl variability time_days
                (or_introl Hle)) as (stamps & Hloop & Hlen & Hrows).
    exists stamps. rewrite Hloop. now repeat split.
  - intros Hlt Hne.
    rewrite (stamp_loop_raises lens_class band mag_zero_point delta_pix
               num_pix psf_kernels image_data Htbl variability time_days
               Hlt Hne).
    reflexivity.
Qed.

(** X12. With the sinusoidal model, a built table and times in days, if
    the lens descriptor reports observer-time lists of different lengths
    at two of the epochs, the variability path raises the
    inhomogeneous-shape error of the array construction and renders
    nothing. *)
Theorem ragged_observer_times (image_data : Table) (time_days : Quantity)
    (t1 t2 : R) :
  point_source_image_properties lens_class band mag_zero_point delta_pix
    num_pix = inr image_data ->
  variability_model variability = "sinusoidal" ->
  time_in_days (time variability) = inr time_days ->
  t1 ∈ value time_days -> t2 ∈ value time_days ->
  length (image_observer_times lens_class t1)
    <> length (image_observer_times lens_class t2) ->
  point_source_image lens_class band mag_zero_point delta_pix num_pix
    psf_kernels (Some variability) = inl InhomogeneousShape.
Proof.
  intros Htbl Hmodel Htime H1 H2 Hne.
  unfold point_source_image. rewrite Htbl. cbn [bind].
  rewrite (point_source_grid_eq _ _ _ _ _ _ Htbl). cbn [bind].
  rewrite psf_class_eq. cbn [bind]. rewrite Htime. cbn [bind].
  rewrite Hmodel, String.eqb_refl. cbn [bind ret]. cbv zeta.
  rewrite np_transpose_ragged with
    (r1 := image_observer_times lens_class t1)
    (r2 := image_observer_times lens_class t2);
    [reflexivity | | | exact Hne].
  - apply list_elem_of_In, in_map_iff. exists t1.
    split; [reflexivity | now apply list_elem_of_In].
  - apply list_elem_of_In, in_map_iff. exists t2.
    split; [reflexivity | now apply list_elem_of_In].
Qed.

(** X13. With the sinusoidal model, a built table, times in days and at
    least one epoch, if the lens descriptor reports fewer observer times
    per epoch than there are images, the variability path raises
    [IndexError]. *)
Theorem missing_observer_times (image_data : Table) (time_days : Quantity)
    (m : nat) :
  point_source_image_properties lens_class band mag_zero_point delta_pix
    num_pix = inr image_data ->
  variability_model variability = "sinusoidal" ->
  time_in_days (time variability) = inr time_days ->
  (forall t, t ∈ value time_days ->
             length (image_observer_times lens_class t) = m) ->
  m < length mags ->
  value time_days <> [] ->
  point_source_image lens_class band mag_zero_point delta_pix num_pix
    psf_kernels (Some variability) = inl IndexError.
Proof.
  intros Htbl Hmodel Htime Hrect Hm Hne.
  unfold point_source_image. rewrite Htbl. cbn [bind].
  rewrite (point_source_grid_eq _ _ _ _ _ _ Htbl). cbn [bind].
  rewrite psf_class_eq. cbn [bind]. rewrite Htime. cbn [bind].
  rewrite Hmodel, String.eqb_refl. cbn [bind ret]. cbv zeta.
  rewrite np_transpose_uniform with (m := m).
  2:{ destruct (value time_days); [congruence | discriminate]. }
  2:{ apply Forall_forall. intros r Hr.
      apply list_elem_of_In, in_map_iff in Hr as (t & <- & Ht).
      apply Hrect. now apply list_elem_of_In. }
  cbn [bind].
  assert (Hk : 0 < length (value time_days)).
  { destruct (value time_days); [congruence | cbn [length]; lia]. }
  rewrite for_in_range_raise with (i := m) (e := IndexError);
    [reflexivity | exact Hm | |].
  - intros i Hi. eexists.
    apply for_in_map with
      (g := fun j =>
              (nth i mags 0%R
               + fn (nth j (map (fun r => nth i r 0%R)
                              (map (fun t_obs =>
                                      image_observer_times lens_class t_obs)
                                   (value time_days))) 0%R))%R).
    intros j Hj. apply elem_of_seq in Hj.
    rewrite index_nth with (d := 0%R) by lia. cbn [bind].
    rewrite index_map_range by lia. cbn [bind].
    rewrite index_nth with (d := 0%R) by (rewrite !length_map; lia).
    reflexivity.
  - apply for_in_range_raise with (i := 0); [exact Hk | intros; lia |].
    rewrite index_nth with (d := 0%R) by lia. cbn [bind].
    rewrite index_ge_raise;
      [reflexivity | unfold range; now rewrite length_map, length_seq].
Qed.

(** X6. Observation times given in hours, minutes or seconds are
    rendered as the same times given in days: the call with a time
    sequence in a unit of [d] days is the call with every time multiplied
    by [d] and tagged day. *)
Theorem variability_time_unit (d : R) :
  in_days (unit_of (time variability)) = Some d ->
  point_source_image lens_class band mag_zero_point delta_pix num_pix
    psf_kernels (Some variability)
  = point_source_image lens_class band mag_zero_point delta_pix num_pix
      psf_kernels
      (Some {| time := {| value := map (fun t => (t * d)%R)
                                       (value (time variability));
                          unit_of := u_day |};
               variability_model := variability_model variability;
               kwargs_variability := kwargs_variability variability |}).
Proof.
  intros Hd.
  assert (Hsame :
    time_in_days (time variability)
    = time_in_days {| value := map (fun t => (t * d)%R)
                                   (value (time variability));
                      unit_of := u_day |}).
  { rewrite !time_in_days_cases. cbn [unit_of].
    destruct (time variability) as [ts u]. cbn [unit_of value] in *.
    unfold to_day. cbn [unit_of value].
    destruct u; cbn [in_days] in Hd |- *; try discriminate;
      injection Hd as <-; try reflexivity.
    unfold ret. do 2 f_equal. rewrite <- (map_id ts) at 1.
    apply map_ext. intros t. unfold id. lra. }
  unfold point_source_image. cbn [time variability_model kwargs_variability].
  now rewrite Hsame.
Qed.

End KernelsAndEpochs.

(** ** The sample systems, continued *)

Lemma double_lens_one_time_properties :
  exists t,
    point_source_image_properties (lenstronomy := Sample.toy_lenstronomy)
      Sample.double_lens_one_time "i" 27 0.2 5 = inr t.
Proof.
  destruct (properties_two_or_raise
              (lenstronomy := Sample.toy_lenstronomy)
              Sample.double_lens_one_time "i" 27 0.2 5) as [Htwo _].
  destruct Htwo as (t & Ht & _); [now repeat split |]. now exists t.
Qed.

Lemma double_lens_ragged_properties :
  exists t,
    point_source_image_properties (lenstronomy := Sample.toy_lenstronomy)
      Sample.double_lens_ragged "i" 27 0.2 5 = inr t.
Proof.
  destruct (properties_two_or_raise
              (lenstronomy := Sample.toy_lenstronomy)
              Sample.double_lens_ragged "i" 27 0.2 5) as [Htwo _].
  destruct Htwo as (t & Ht & _); [now repeat split |]. now exists t.
Qed.

Lemma double_lens_ragged_times :
  length (image_observer_times Sample.double_lens_ragged 0)
  <> length (image_observer_times Sample.double_lens_ragged 30).
Proof.
  cbn [image_observer_times Sample.double_lens_ragged].
  destruct (Rle_dec 0 0) as [_ | Hn]; [| lra].
  destruct (Rle_dec 30 0) as [Hle | _]; [lra |].
  discriminate.
Qed.

(** X4, on the quadruply imaged source. *)
Lemma point_source_image_needs_two_images_witness :
  point_source_image (lenstronomy := Sample.toy_lenstronomy)
    (variability_models := Sample.toy_variability)
    Sample.quad_lens "i" 27 0.2 5 [Sample.kernel] None
  = inl InconsistentColumnLengths.
Proof.
  apply (point_source_image_needs_two_images
           (lenstronomy := Sample.toy_lenstronomy)
           (variability_models := Sample.toy_variability)
           Sample.quad_lens "i" 27 0.2 5 [Sample.kernel] None).
  intros (Hra & _). discriminate.
Defined.

(** X5, on one day given in seconds. *)
Lemma time_in_days_normal_witness :
  exists q,
    time_in_days Sample.one_day_in_seconds = inr q /\
    unit_of q = u_day /\ length (value q) = 1 /\ time_in_days q = inr q.
Proof.
  eexists. split; [reflexivity |].
  destruct (time_in_days_normal Sample.one_day_in_seconds) as [_ Hnormal].
  exact (Hnormal _ eq_refl).
Defined.

(** X6, on one day given in seconds. *)
Lemma variability_time_unit_witness :
  point_source_image (lenstronomy := Sample.toy_lenstronomy)
    (variability_models := Sample.toy_variability)
    Sample.double_lens "i" 27 0.2 5 [Sample.kernel; Sample.kernel]
    (Some Sample.sinusoidal_spec_in_seconds)
  = point_source_image (lenstronomy := Sample.toy_lenstronomy)
      (variability_models := Sample.toy_variability)
      Sample.double_lens "i" 27 0.2 5 [Sample.kernel; Sample.kernel]
      (Some {| time := {| value := [(86400 * (1 / 86400))%R];
                          unit_of := u_day |};
               variability_model := "sinusoidal";
               kwargs_variability :=
                 <["amp" := 2%R]> (<["freq" := 0.5%R]> ∅) |}).
Proof.
  exact (variability_time_unit (lenstronomy := Sample.toy_lenstronomy)
           (variability_models := Sample.toy_variability)
           Sample.double_lens "i" 27 0.2 5 [Sample.kernel; Sample.kernel]
           Sample.sinusoidal_spec_in_seconds (1 / 86400)%R eq_refl).
Defined.

(** X7, on the doubly imaged source with one kernel and with three. *)
Lemma static_kernel_count_witness :
  (exists stamps,
     point_source_image (lenstronomy := Sample.toy_lenstronomy)
       (variability_models := Sample.toy_variability)
       Sample.double_lens "i" 27 0.2 5 [Sample.kernel] None
     = inr (Stamps stamps) /\ length stamps = 1) /\
  point_source_image (lenstronomy := Sample.toy_lenstronomy)
    (variability_models := Sample.toy_variability)
    Sample.double_lens "i" 27 0.2 5
    [Sample.kernel; Sample.kernel; Sample.kernel] None
  = inl IndexError.
Proof.
  split.
  - destruct (static_kernel_count (lenstronomy := Sample.toy_lenstronomy)
                (variability_models := Sample.toy_variability)
                Sample.double_lens "i" 27 0.2 5 [Sample.kernel]
                Sample.double_lens_table (double_lens_properties "i" 0.2 5))
      as [Hfew _].
    apply Hfew. cbn. lia.
  - destruct (static_kernel_count (lenstronomy := Sample.toy_lenstronomy)
                (variability_models := Sample.toy_variability)
                Sample.double_lens "i" 27 0.2 5
                [Sample.kernel; Sample.kernel; Sample.kernel]
                Sample.double_lens_table (double_lens_properties "i" 0.2 5))
      as [_ Hmany].
    apply Hmany. cbn. lia.
Defined.

(** X8, on the doubly imaged source with three kernels. *)
Lemma no_epochs_no_stamps_witness :
  point_source_image (lenstronomy := Sample.toy_lenstronomy)
    (variability_models := Sample.toy_variability)
    Sample.double_lens "i" 27 0.2 5
    [Sample.kernel; Sample.kernel; Sample.kernel]
    (Some Sample.sinusoidal_spec_no_epoch)
  = inr (StampsByEpoch [[]; []; []]).
Proof.
  exact (no_epochs_no_stamps (lenstronomy := Sample.toy_lenstronomy)
           (variability_models := Sample.toy_variability)
           Sample.double_lens "i" 27 0.2 5
           [Sample.kernel; Sample.kernel; Sample.kernel]
           Sample.sinusoidal_spec_no_epoch Sample.double_lens_table
           {| value := []; unit_of := u_day |}
           (double_lens_properties "i" 0.2 5) eq_refl eq_refl eq_refl).
Defined.

(** X11, on the doubly imaged source at two epochs with two kernels and
    with three. *)
Lemma variability_kernel_count_witness :
  (exists stamps,
     point_source_image (lenstronomy := Sample.toy_lenstronomy)
       (variability_models := Sample.toy_variability)
       Sample.double_lens "i" 27 0.2 5 [Sample.kernel; Sample.kernel]
       (Some Sample.sinusoidal_spec) = inr (StampsByEpoch stamps) /\
     length stamps = 2) /\
  point_source_image (lenstronomy := Sample.toy_lenstronomy)
    (variability_models := Sample.toy_variability)
    Sample.double_lens "i" 27 0.2 5
    [Sample.kernel; Sample.kernel; Sample.kernel]
    (Some Sample.sinusoidal_spec) = inl IndexError.
Proof.
  split.
  - destruct (variability_kernel_count
                (lenstronomy := Sample.toy_lenstronomy)
                (variability_models := Sample.toy_variability)
                Sample.double_lens "i" 27 0.2 5
                [Sample.kernel; Sample.kernel] Sample.sinusoidal_spec
                Sample.double_lens_table Sample.epochs_days 2
                (double_lens_properties "i" 0.2 5) eq_refl
                epochs_days_in_days (fun t _ => eq_refl) (le_n 2))
      as [Hfew _].
    destruct (Hfew (le_n 2)) as (stamps & Hrun & Hlen & _).
    exists stamps. now split.
  - destruct (variability_kernel_count
                (lenstronomy := Sample.toy_lenstronomy)
                (variability_models := Sample.toy_variability)
                Sample.double_lens "i" 27 0.2 5
                [Sample.kernel; Sample.kernel; Sample.kernel]
                Sample.sinusoidal_spec
                Sample.double_lens_table Sample.epochs_days 2
                (double_lens_properties "i" 0.2 5) eq_refl
                epochs_days_in_days (fun t _ => eq_refl) (le_n 2))
      as [_ Hmany].
    apply Hmany; [cbn; lia | discriminate].
Defined.

(** X12, on the source whose observer-time lists have two lengths. *)
Lemma ragged_observer_times_witness :
  point_source_image (lenstronomy := Sample.toy_lenstronomy)
    (variability_models := Sample.toy_variability)
    Sample.double_lens_ragged "i" 27 0.2 5 [Sample.kernel; Sample.kernel]
    (Some Sample.sinusoidal_spec) = inl InhomogeneousShape.
Proof.
  destruct double_lens_ragged_properties as [t Ht].
  apply (ragged_observer_times (lenstronomy := Sample.toy_lenstronomy)
           (variability_models := Sample.toy_variability)
           Sample.double_lens_ragged "i" 27 0.2 5
           [Sample.kernel; Sample.kernel] Sample.sinusoidal_spec
           t Sample.epochs_days 0%R 30%R Ht eq_refl epochs_days_in_days).
  - apply list_elem_of_here.
  - apply list_elem_of_further, list_elem_of_here.
  - apply double_lens_ragged_times.
Defined.

(** X13, on the source with one observer time for two images. *)
Lemma missing_observer_times_witness :
  point_source_image (lenstronomy := Sample.toy_lenstronomy)
    (variability_models := Sample.toy_variability)
    Sample.double_lens_one_time "i" 27 0.2 5 [Sample.kernel; Sample.kernel]
    (Some Sample.sinusoidal_spec) = inl IndexError.
Proof.
  destruct double_lens_one_time_properties as [t Ht].
  apply (missing_observer_times (lenstronomy := Sample.toy_lenstronomy)
           (variability_models := Sample.toy_variability)
           Sample.double_lens_one_time "i" 27 0.2 5
           [Sample.kernel; Sample.kernel] Sample.sinusoidal_spec
           t Sample.epochs_days 1 Ht eq_refl epochs_days_in_days
           (fun t _ => eq_refl)).
  - cbn. lia.
  - discriminate.
Defined.
